(** * bcm2708-i2s-spdif-driver.c: the S/PDIF double-buffer refill protocol

    A shallow embedding of the ALSA callbacks ([bcm2708_pcm_open],
    [bcm2708_pcm_close], [bcm2708_pcm_prepare], [bcm2708_pcm_trigger]), of
    the DMA completion callback [bcm2708_i2s_dma_complete] and of
    [bcm2708_i2s_dmaengine_prepare_and_submit].

    Conventions.
    - C integers are [Z] with the wrap-around of their type written out
      ([to_int], [to_ulong]).
    - A pointer into a buffer is the byte offset from the buffer's base.
    - A function of the driver takes the device structure and returns the
      device structure it leaves behind, together with the list of the
      externally visible kernel calls it made, in order ([event]).
    - What a kernel service answers (a clock call's return value, whether a
      DMA descriptor could be obtained, the cookie of a submission, the
      residue of the running transfer) is an argument of the function.
    - [dprintk] is left out: it only prints, under the [debug] mask. *)

From Stdlib Require Import ZArith Lia Strings.Byte.
From stdpp Require Import base numbers list.

Local Open Scope Z_scope.

(** ** C integer types *)

Definition wrap_unsigned (bits x : Z) : Z := x mod 2 ^ bits.

Definition wrap_signed (bits x : Z) : Z :=
  (x + 2 ^ (bits - 1)) mod 2 ^ bits - 2 ^ (bits - 1).

(** [int] and [atomic_t] are 32 bits wide; the kernel is built with
    wrapping signed arithmetic. *)
Definition to_int (x : Z) : Z := wrap_signed 32 x.

(** The width of [unsigned long] ([snd_pcm_uframes_t]) depends on the
    kernel the module is built for: 32 bits on the BCM2708 itself, 64 bits
    on an arm64 kernel. *)
Class KernelABI := {
  BITS_PER_LONG : Z;
  BITS_PER_LONG_cases : BITS_PER_LONG = 32 ∨ BITS_PER_LONG = 64
}.

Definition to_ulong `{KernelABI} (x : Z) : Z := wrap_unsigned BITS_PER_LONG x.

Definition EINVAL : Z := 22.
Definition ENOMEM : Z := 12.

(** ** atomic_t operations (linux/atomic.h)

    Each returns what the C function returns and the value the counter
    holds afterwards. *)

Definition atomic_inc_not_zero (v : Z) : bool * Z :=
  if v =? 0 then (false, v) else (true, to_int (v + 1)).

Definition atomic_cmpxchg (v old new : Z) : Z * Z :=
  (v, if v =? old then new else v).

Definition atomic_xchg (v new : Z) : Z * Z := (v, new).

(** ** ALSA side: formats, runtime, substream *)

Inductive snd_pcm_format :=
| SNDRV_PCM_FORMAT_S16_LE
| SNDRV_PCM_FORMAT_S20_LE
| SNDRV_PCM_FORMAT_S24_LE
| SNDRV_PCM_FORMAT_S20_3LE
| SNDRV_PCM_FORMAT_S24_3LE
| SNDRV_PCM_FORMAT_S32_LE
| SNDRV_PCM_FORMAT_other (code : Z).

Record snd_pcm_runtime := {
  rate : Z;
  format : snd_pcm_format;
  sample_bits : Z;
  frame_bits : Z;
  buffer_size : Z;   (* in frames *)
  period_size : Z    (* in frames *)
}.

(** [dma_buffer_area] is the PCM ring buffer [ss->dma_buffer.area]. *)
Record snd_pcm_substream := {
  runtime : snd_pcm_runtime;
  dma_buffer_area : list byte
}.

(** sound/pcm.h: [size * runtime->frame_bits / 8]. *)
Definition frames_to_bytes (rt : snd_pcm_runtime) (size : Z) : Z :=
  size * frame_bits rt / 8.

Inductive trigger_cmd :=
| SNDRV_PCM_TRIGGER_STOP
| SNDRV_PCM_TRIGGER_START
| SNDRV_PCM_TRIGGER_PAUSE_PUSH
| SNDRV_PCM_TRIGGER_PAUSE_RELEASE
| SNDRV_PCM_TRIGGER_SUSPEND
| SNDRV_PCM_TRIGGER_RESUME
| SNDRV_PCM_TRIGGER_DRAIN.

(** ** The software encoder (spdif-encoder.h) *)

(** The four encoders a [spdif_encode_func] pointer can hold. *)
Inductive spdif_encode_func :=
| spdif_encode_frame_s16le
| spdif_encode_frame_s24le
| spdif_encode_frame_s24le_packed
| spdif_encode_frame_s32le.

(** Modelled from the spec: spdif-encoder.h and spdif-encoder.c are not
    among the sources, so the encoder is an interface.  [spdif_encoder] is
    [struct spdif_encoder]; [spdif_encode f e src] is the call
    [f(&e, dst, src)]: it reads the memory that starts at [src] and returns
    the encoder it leaves behind and the bytes it stores at [dst].  The
    spec (4.3) gives [dst] the type [&mut [u8; FRAME_BYTES]]: one call
    stores one frame of [SPDIF_FRAMESIZE] bytes.  The channel-status codes
    are the header's constants. *)
Class SpdifEncoder := {
  spdif_encoder : Type;
  SPDIF_FRAMESIZE : Z;
  SPDIF_FRAMESIZE_pos : 0 < SPDIF_FRAMESIZE;
  spdif_encode :
    spdif_encode_func → spdif_encoder → list byte → spdif_encoder * list byte;
  spdif_encode_length : ∀ f e src,
    length (spdif_encode f e src).2 = Z.to_nat SPDIF_FRAMESIZE;
  spdif_encoder_set_channel_status : spdif_encoder → list Z → spdif_encoder;
  SPDIF_CS0_NOT_COPYRIGHT : Z;
  SPDIF_CS1_DDCONV : Z;
  SPDIF_CS1_ORIGINAL : Z;
  SPDIF_CS3_44100 : Z;
  SPDIF_CS3_48000 : Z;
  SPDIF_CS3_88200 : Z;
  SPDIF_CS3_96000 : Z;
  SPDIF_CS3_176400 : Z;
  SPDIF_CS3_192000 : Z;
  SPDIF_CS4_WORDLEN_UNSPEC : Z;
  SPDIF_CS4_WORDLEN_20_16 : Z;
  SPDIF_CS4_WORDLEN_24_20 : Z;
  SPDIF_CS4_MAX_WORDLEN_24 : Z
}.

(** ** What the kernel sees the driver do *)

Inductive log_msg :=
| msg_invalid_sampling_rate (r : Z)
| msg_invalid_format (f : snd_pcm_format)
| msg_cannot_set_clock_rate (r : Z)
| msg_cannot_enable_clock
| msg_prepare (bits r : Z)
| msg_start_silenced (frames : Z)
| msg_start
| msg_stop.

Inductive event :=
| dev_err (m : log_msg)
| dev_info (m : log_msg)
| clk_set_rate (r : Z)
| clk_prepare_enable
| dmaengine_prep_dma_cyclic (buf_len period_len : Z)
| dmaengine_submit
| dma_async_issue_pending
| dmaengine_terminate_all
| snd_pcm_period_elapsed.

(** What the kernel answers during one call of the control path. *)
Record kernel_env := {
  clk_set_rate_ret : Z;
  clk_prepare_enable_ret : Z;
  dma_desc_available : bool;   (* dmaengine_prep_dma_cyclic != NULL *)
  dma_submit_cookie : Z        (* what dmaengine_submit returns *)
}.

Definition is_period_elapsed (e : event) : bool :=
  match e with snd_pcm_period_elapsed => true | _ => false end.

(** Number of period-elapsed notifications in a trace. *)
Fixpoint period_elapsed_count (t : list event) : nat :=
  match t with
  | [] => 0
  | e :: t' => (if is_period_elapsed e then 1 else 0) + period_elapsed_count t'
  end.

(** ** The device structure and the driver's functions *)

Section Driver.
Context `{ABI : KernelABI} `{ENC : SpdifEncoder}.

Definition SPDIF_BUFSIZE_FRAMES : Z := 2 * 192.
Definition SPDIF_BUFSIZE : Z := SPDIF_BUFSIZE_FRAMES * SPDIF_FRAMESIZE.
Definition PCM_PERIODES : Z := 8.
Definition PCM_BUFSIZE : Z := PCM_PERIODES * 192 * 24.

(** The fields of [struct bcm2708_i2s_dev] the streaming protocol uses.
    [ss] is the pointer to the current substream, given with the
    substream it points to. *)
Record bcm2708_i2s_dev := {
  i2s_dma_cookie : Z;
  spdif_buffer : list byte;      (* SPDIF_BUFSIZE bytes *)
  pcm_pointer : Z;               (* snd_pcm_uframes_t *)
  spdif : spdif_encoder;
  ss : option snd_pcm_substream;
  period_frames : Z;             (* int *)
  encode_frame : option spdif_encode_func;
  silence : Z                    (* atomic_t *)
}.

Definition set_i2s_dma_cookie (v : Z) (d : bcm2708_i2s_dev) :=
  {| i2s_dma_cookie := v; spdif_buffer := spdif_buffer d;
     pcm_pointer := pcm_pointer d; spdif := spdif d; ss := ss d;
     period_frames := period_frames d; encode_frame := encode_frame d;
     silence := silence d |}.

Definition set_spdif_buffer (v : list byte) (d : bcm2708_i2s_dev) :=
  {| i2s_dma_cookie := i2s_dma_cookie d; spdif_buffer := v;
     pcm_pointer := pcm_pointer d; spdif := spdif d; ss := ss d;
     period_frames := period_frames d; encode_frame := encode_frame d;
     silence := silence d |}.

Definition set_pcm_pointer (v : Z) (d : bcm2708_i2s_dev) :=
  {| i2s_dma_cookie := i2s_dma_cookie d; spdif_buffer := spdif_buffer d;
     pcm_pointer := v; spdif := spdif d; ss := ss d;
     period_frames := period_frames d; encode_frame := encode_frame d;
     silence := silence d |}.

Definition set_spdif (v : spdif_encoder) (d : bcm2708_i2s_dev) :=
  {| i2s_dma_cookie := i2s_dma_cookie d; spdif_buffer := spdif_buffer d;
     pcm_pointer := pcm_pointer d; spdif := v; ss := ss d;
     period_frames := period_frames d; encode_frame := encode_frame d;
     silence := silence d |}.

Definition set_ss (v : option snd_pcm_substream) (d : bcm2708_i2s_dev) :=
  {| i2s_dma_cookie := i2s_dma_cookie d; spdif_buffer := spdif_buffer d;
     pcm_pointer := pcm_pointer d; spdif := spdif d; ss := v;
     period_frames := period_frames d; encode_frame := encode_frame d;
     silence := silence d |}.

Definition set_period_frames (v : Z) (d : bcm2708_i2s_dev) :=
  {| i2s_dma_cookie := i2s_dma_cookie d; spdif_buffer := spdif_buffer d;
     pcm_pointer := pcm_pointer d; spdif := spdif d; ss := ss d;
     period_frames := v; encode_frame := encode_frame d;
     silence := silence d |}.

Definition set_encode_frame (v : option spdif_encode_func)
    (d : bcm2708_i2s_dev) :=
  {| i2s_dma_cookie := i2s_dma_cookie d; spdif_buffer := spdif_buffer d;
     pcm_pointer := pcm_pointer d; spdif := spdif d; ss := ss d;
     period_frames := period_frames d; encode_frame := v;
     silence := silence d |}.

Definition set_silence (v : Z) (d : bcm2708_i2s_dev) :=
  {| i2s_dma_cookie := i2s_dma_cookie d; spdif_buffer := spdif_buffer d;
     pcm_pointer := pcm_pointer d; spdif := spdif d; ss := ss d;
     period_frames := period_frames d; encode_frame := encode_frame d;
     silence := v |}.

(** [const uint32_t zero[2] = {0, 0}]: eight zero bytes. *)
Definition zero : list byte := replicate 8 x00.

(** Storing [frame] at byte offset [dst] of [buf]. *)
Definition store_bytes (buf : list byte) (dst : Z) (frame : list byte)
    : list byte :=
  list_inserts (Z.to_nat dst) frame buf.

(** The encoding loops of the driver, all of the shape
<<
      for (i = 0; i < n; i++) {
          dev->encode_frame(&dev->spdif, dst, src);
          src += stride;
          dst += SPDIF_FRAMESIZE;
      }
>>
    with [stride = 0] where the source stays on [zero].  [mem] is the
    object [src] points into. *)
Fixpoint encode_frames (f : spdif_encode_func) (n : nat)
    (e : spdif_encoder) (buf : list byte) (dst : Z)
    (mem : list byte) (src stride : Z) : spdif_encoder * list byte :=
  match n with
  | O => (e, buf)
  | S n' =>
      let r := spdif_encode f e (drop (Z.to_nat src) mem) in
      encode_frames f n' r.1 (store_bytes buf dst r.2)
        (dst + SPDIF_FRAMESIZE) mem (src + stride) stride
  end.

Definition bcm2708_pcm_open (s : snd_pcm_substream) (dev : bcm2708_i2s_dev)
    : Z * bcm2708_i2s_dev * list event :=
  (0, set_ss (Some s) dev, []).

Definition bcm2708_pcm_close (s : snd_pcm_substream) (dev : bcm2708_i2s_dev)
    : Z * bcm2708_i2s_dev * list event :=
  (0, set_ss None dev, []).

Definition bcm_2708_i2s_init_clock (env : kernel_env) (bclk_rate : Z)
    : list event :=
  (clk_set_rate bclk_rate ::
     if clk_set_rate_ret env =? 0 then []
     else [dev_err (msg_cannot_set_clock_rate bclk_rate)])
  ++
  (clk_prepare_enable ::
     if clk_prepare_enable_ret env =? 0 then []
     else [dev_err msg_cannot_enable_clock]).

Definition bcm2708_i2s_dmaengine_prepare_and_submit
    (dev : bcm2708_i2s_dev) (env : kernel_env)
    : Z * bcm2708_i2s_dev * list event :=
  if 0 <? i2s_dma_cookie dev then (0, dev, [])
  else
    let dev1 :=
      match encode_frame dev with
      | Some f =>
          (* Fill with silence *)
          let r := encode_frames f (Z.to_nat SPDIF_BUFSIZE_FRAMES)
                     (spdif dev) (spdif_buffer dev) 0 zero 0 0 in
          set_spdif_buffer r.2 (set_spdif r.1 dev)
      | None => dev
      end in
    let prep := dmaengine_prep_dma_cyclic SPDIF_BUFSIZE (SPDIF_BUFSIZE / 2) in
    if dma_desc_available env then
      (0, set_i2s_dma_cookie (dma_submit_cookie env) dev1,
       [prep; dmaengine_submit; dma_async_issue_pending])
    else (- ENOMEM, dev1, [prep]).

(** The [CASE_RATE] switch: the code for [ch_stat[3]], or the default. *)
Definition case_rate (r : Z) : option Z :=
  if r =? 44100 then Some SPDIF_CS3_44100
  else if r =? 48000 then Some SPDIF_CS3_48000
  else if r =? 88200 then Some SPDIF_CS3_88200
  else if r =? 96000 then Some SPDIF_CS3_96000
  else if r =? 176400 then Some SPDIF_CS3_176400
  else if r =? 192000 then Some SPDIF_CS3_192000
  else None.

(** The format switch: the encoder for [dev->encode_frame], or the
    default. *)
Definition case_format (f : snd_pcm_format) : option spdif_encode_func :=
  match f with
  | SNDRV_PCM_FORMAT_S16_LE => Some spdif_encode_frame_s16le
  | SNDRV_PCM_FORMAT_S20_LE
  | SNDRV_PCM_FORMAT_S24_LE => Some spdif_encode_frame_s24le
  | SNDRV_PCM_FORMAT_S20_3LE
  | SNDRV_PCM_FORMAT_S24_3LE => Some spdif_encode_frame_s24le_packed
  | SNDRV_PCM_FORMAT_S32_LE => Some spdif_encode_frame_s32le
  | SNDRV_PCM_FORMAT_other _ => None
  end.

(** The [sample_bits] switch on [ch_stat[4]], which starts as
    [SPDIF_CS4_WORDLEN_UNSPEC] and has no default case. *)
Definition case_sample_bits (b : Z) : Z :=
  if b =? 16 then SPDIF_CS4_WORDLEN_20_16
  else if b =? 20 then SPDIF_CS4_WORDLEN_24_20
  else if (b =? 24) || (b =? 32)
       then Z.lor SPDIF_CS4_MAX_WORDLEN_24 SPDIF_CS4_WORDLEN_24_20
  else SPDIF_CS4_WORDLEN_UNSPEC.

Definition bcm2708_pcm_prepare (s : snd_pcm_substream)
    (dev : bcm2708_i2s_dev) (env : kernel_env)
    : Z * bcm2708_i2s_dev * list event :=
  let rt := runtime s in
  match case_rate (rate rt) with
  | None => (- EINVAL, dev, [dev_err (msg_invalid_sampling_rate (rate rt))])
  | Some cs3 =>
      match case_format (format rt) with
      | None => (- EINVAL, dev, [dev_err (msg_invalid_format (format rt))])
      | Some f =>
          let dev1 := set_encode_frame (Some f) dev in
          let ch_stat :=
            [ SPDIF_CS0_NOT_COPYRIGHT;
              Z.lor SPDIF_CS1_DDCONV SPDIF_CS1_ORIGINAL;
              0;
              cs3;
              case_sample_bits (sample_bits rt) ] in
          let dev2 :=
            set_spdif (spdif_encoder_set_channel_status (spdif dev1) ch_stat)
              dev1 in
          let clk := bcm_2708_i2s_init_clock env (128 * rate rt) in
          let x := atomic_cmpxchg (silence dev2) 0 1 in
          let dev3 := set_silence x.2 dev2 in
          let log :=
            if x.1 =? 0
            then [dev_info (msg_prepare (sample_bits rt) (rate rt))]
            else [] in
          let r := bcm2708_i2s_dmaengine_prepare_and_submit dev3 env in
          (0, r.1.2, clk ++ log ++ r.2)
      end
  end.

Definition bcm2708_pcm_trigger (s : snd_pcm_substream)
    (dev : bcm2708_i2s_dev) (cmd : trigger_cmd) (env : kernel_env)
    : Z * bcm2708_i2s_dev * list event :=
  match cmd with
  | SNDRV_PCM_TRIGGER_START =>
      let dev1 := set_period_frames 0 (set_pcm_pointer 0 dev) in
      let x := atomic_xchg (silence dev1) 0 in
      let dev2 := set_silence x.2 dev1 in
      let log :=
        if 1 <? x.1
        then [dev_info (msg_start_silenced
                (Z.quot (to_int (to_int (x.1 + 1) * SPDIF_BUFSIZE_FRAMES)) 2))]
        else [dev_info msg_start] in
      let r := bcm2708_i2s_dmaengine_prepare_and_submit dev2 env in
      (0, r.1.2, log ++ r.2)
  | SNDRV_PCM_TRIGGER_STOP =>
      (0, set_i2s_dma_cookie 0 dev, [dev_info msg_stop; dmaengine_terminate_all])
  | _ => (- EINVAL, dev, [])
  end.

Definition bcm2708_pcm_pointer (dev : bcm2708_i2s_dev) : Z := pcm_pointer dev.

(** index of part of double buffer to fill *)
Definition refill_offset (residue : Z) : Z :=
  if residue <=? SPDIF_BUFSIZE / 2 then 0 else SPDIF_BUFSIZE / 2.

(** [residue] is what [dmaengine_tx_status] stores in [state.residue]. *)
Definition bcm2708_i2s_dma_complete (dev : bcm2708_i2s_dev) (residue : Z)
    : bcm2708_i2s_dev * list event :=
  match encode_frame dev with
  | None => (dev, [])
  | Some f =>
      let offset := refill_offset residue in
      let dst := offset in
      let a := atomic_inc_not_zero (silence dev) in
      let dev1 := set_silence a.2 dev in
      if a.1 then
        let r := encode_frames f (Z.to_nat (SPDIF_BUFSIZE_FRAMES / 2))
                   (spdif dev1) (spdif_buffer dev1) dst zero 0 0 in
        (set_spdif_buffer r.2 (set_spdif r.1 dev1), [])
      else
        match ss dev1 with
        | Some s =>
            let rt := runtime s in
            let frame_bytes := frames_to_bytes rt 1 in
            let src := frames_to_bytes rt (pcm_pointer dev1) in
            let r := encode_frames f (Z.to_nat (SPDIF_BUFSIZE_FRAMES / 2))
                       (spdif dev1) (spdif_buffer dev1) dst
                       (dma_buffer_area s) src frame_bytes in
            let dev2 := set_spdif_buffer r.2 (set_spdif r.1 dev1) in
            let p := to_ulong (pcm_pointer dev2 + SPDIF_BUFSIZE_FRAMES / 2) in
            let p' := if buffer_size rt <=? p
                      then to_ulong (p - buffer_size rt) else p in
            let dev3 := set_pcm_pointer p' dev2 in
            let pf := to_int (period_frames dev3 + SPDIF_BUFSIZE_FRAMES / 2) in
            if period_size rt <=? to_ulong pf then
              (set_period_frames (to_int (to_ulong pf - period_size rt)) dev3,
               [snd_pcm_period_elapsed])
            else (set_period_frames pf dev3, [])
        | None => (dev1, [])
        end
  end.

(** ** Vocabulary for the statements *)

(** The frames an encoder produces, one after the other, from a list of
    source regions: the encoder left behind, and the frames' bytes in
    order. *)
Fixpoint encode_seq (f : spdif_encode_func) (e : spdif_encoder)
    (srcs : list (list byte)) : spdif_encoder * list byte :=
  match srcs with
  | [] => (e, [])
  | s :: rest =>
      let r := spdif_encode f e s in
      let r' := encode_seq f r.1 rest in
      (r'.1, r.2 ++ r'.2)
  end.

(** The memory a loop of [encode_frames] hands to its successive calls. *)
Fixpoint loop_sources (mem : list byte) (src stride : Z) (n : nat)
    : list (list byte) :=
  match n with
  | O => []
  | S n' => drop (Z.to_nat src) mem :: loop_sources mem (src + stride) stride n'
  end.

(** The PCM ring buffer seen from frame [first], [first + 1], ...: [n]
    consecutive stereo sample pairs. *)
Definition ring_frames (s : snd_pcm_substream) (first : Z) (n : nat)
    : list (list byte) :=
  map (λ i : nat,
         drop (Z.to_nat (frames_to_bytes (runtime s) (first + Z.of_nat i)))
              (dma_buffer_area s))
      (seq 0 n).

(** Frames per refill of one half, [SPDIF_BUFSIZE_FRAMES/2]. *)
Definition HALF_FRAMES : nat := Z.to_nat (SPDIF_BUFSIZE_FRAMES / 2).

(** Bytes per half, [SPDIF_BUFSIZE/2]. *)
Definition HALF_BYTES : nat := Z.to_nat (SPDIF_BUFSIZE / 2).

(** How many multiples of the period the period counter reaches when it
    advances from [pf] by one refill. *)
Definition threshold_crossings (pf ps : Z) : Z :=
  (pf + SPDIF_BUFSIZE_FRAMES / 2) / ps.

(** [dev->period_frames += SPDIF_BUFSIZE_FRAMES/2] and
    [dev->pcm_pointer += SPDIF_BUFSIZE_FRAMES/2], before the tests that
    follow them. *)
Definition advanced_period_frames (dev : bcm2708_i2s_dev) : Z :=
  to_int (period_frames dev + SPDIF_BUFSIZE_FRAMES / 2).

Definition advanced_pcm_pointer (dev : bcm2708_i2s_dev) : Z :=
  to_ulong (pcm_pointer dev + SPDIF_BUFSIZE_FRAMES / 2).

(** Period accounting that misses no threshold: one notification per
    multiple of the period reached, and the period subtracted as often. *)
Definition period_accounting_exact (dev : bcm2708_i2s_dev) (residue : Z)
    (s : snd_pcm_substream) : Prop :=
  let r := bcm2708_i2s_dma_complete dev residue in
  let k := threshold_crossings (period_frames dev) (period_size (runtime s)) in
  period_elapsed_count r.2 = Z.to_nat k
  ∧ period_frames r.1
    = period_frames dev + SPDIF_BUFSIZE_FRAMES / 2 - k * period_size (runtime s).

(** A completion that is a silence-fill cycle and does not look at the
    stream: it fills the selected half with [SPDIF_BUFSIZE_FRAMES/2] frames
    encoded from the zero sample pair, raises no period-elapsed
    notification, leaves the stream position alone, and does the same
    whatever [dev->ss] points to. *)
Definition silence_fill_cycle (dev : bcm2708_i2s_dev) (residue : Z) : Prop :=
  let r := bcm2708_i2s_dma_complete dev residue in
  (∃ f, encode_frame dev = Some f
        ∧ take HALF_BYTES
            (drop (Z.to_nat (refill_offset residue)) (spdif_buffer r.1))
          = (encode_seq f (spdif dev) (replicate HALF_FRAMES zero)).2)
  ∧ period_elapsed_count r.2 = 0%nat
  ∧ pcm_pointer r.1 = pcm_pointer dev
  ∧ period_frames r.1 = period_frames dev
  ∧ ∀ x, bcm2708_i2s_dma_complete (set_ss x dev) residue = (set_ss x r.1, r.2).

(** The operations the kernel can invoke on the device. *)
Inductive driver_op :=
| op_open (s : snd_pcm_substream)
| op_close (s : snd_pcm_substream)
| op_prepare (s : snd_pcm_substream) (env : kernel_env)
| op_trigger (s : snd_pcm_substream) (cmd : trigger_cmd) (env : kernel_env)
| op_dma_complete (residue : Z).

Definition run_op (o : driver_op) (dev : bcm2708_i2s_dev)
    : bcm2708_i2s_dev * list event :=
  match o with
  | op_open s => let r := bcm2708_pcm_open s dev in (r.1.2, r.2)
  | op_close s => let r := bcm2708_pcm_close s dev in (r.1.2, r.2)
  | op_prepare s env => let r := bcm2708_pcm_prepare s dev env in (r.1.2, r.2)
  | op_trigger s cmd env =>
      let r := bcm2708_pcm_trigger s dev cmd env in (r.1.2, r.2)
  | op_dma_complete residue => bcm2708_i2s_dma_complete dev residue
  end.

(** A sequence of operations, with the trace of all of them. *)
Fixpoint run_ops (os : list driver_op) (dev : bcm2708_i2s_dev)
    : bcm2708_i2s_dev * list event :=
  match os with
  | [] => (dev, [])
  | o :: rest =>
      let r := run_op o dev in
      let r' := run_ops rest r.1 in
      (r'.1, r.2 ++ r'.2)
  end.

(** Is the operation one of the control path (not the completion
    callback)? *)
Definition is_control_path (o : driver_op) : bool :=
  match o with op_dma_complete _ => false | _ => true end.

End Driver.

(** ** A 32-bit kernel and a stand-in encoder, to run the driver on
       concrete inputs *)

Definition abi32 : KernelABI :=
  {| BITS_PER_LONG := 32; BITS_PER_LONG_cases := or_introl eq_refl |}.

(** Bytes per stereo frame each encoder reads. *)
Definition demo_width (f : spdif_encode_func) : nat :=
  match f with
  | spdif_encode_frame_s16le => 4
  | spdif_encode_frame_s24le => 8
  | spdif_encode_frame_s24le_packed => 6
  | spdif_encode_frame_s32le => 8
  end.

(** The stand-in keeps the position in the 192-frame block and the
    channel-status bytes; a frame is 16 bytes: a marker for the block
    start, then the source bytes, zero padded. *)
Definition demo_encode (f : spdif_encode_func) (e : nat * list Z)
    (src : list byte) : (nat * list Z) * list byte :=
  ((S e.1 mod 192, e.2)%nat,
   take 16 ((if Nat.eqb e.1 0 then x42 else x4d)
              :: take (demo_width f) src ++ replicate 16 x00)).

Lemma demo_encode_length f e src :
  length (demo_encode f e src).2 = Z.to_nat 16.
Proof.
  unfold demo_encode. cbn [snd].
  rewrite length_take. cbn [length].
  rewrite length_app, length_replicate. change (Z.to_nat 16) with 16%nat. lia.
Qed.

Definition demo_encoder : SpdifEncoder :=
  {| spdif_encoder := (nat * list Z)%type;
     SPDIF_FRAMESIZE := 16;
     SPDIF_FRAMESIZE_pos := eq_refl;
     spdif_encode := demo_encode;
     spdif_encode_length := demo_encode_length;
     spdif_encoder_set_channel_status := λ e cs, (e.1, cs);
     SPDIF_CS0_NOT_COPYRIGHT := 0x04;
     SPDIF_CS1_DDCONV := 0x02;
     SPDIF_CS1_ORIGINAL := 0x80;
     SPDIF_CS3_44100 := 0x00;
     SPDIF_CS3_48000 := 0x02;
     SPDIF_CS3_88200 := 0x08;
     SPDIF_CS3_96000 := 0x0a;
     SPDIF_CS3_176400 := 0x0c;
     SPDIF_CS3_192000 := 0x0e;
     SPDIF_CS4_WORDLEN_UNSPEC := 0x00;
     SPDIF_CS4_WORDLEN_20_16 := 0x02;
     SPDIF_CS4_WORDLEN_24_20 := 0x0a;
     SPDIF_CS4_MAX_WORDLEN_24 := 0x01 |}.

(** The device as [bcm2708_i2s_probe] leaves it: zeroed by
    [devm_kzalloc], with the S/PDIF buffer allocated. *)
Definition dev_probed : @bcm2708_i2s_dev demo_encoder :=
  {| i2s_dma_cookie := 0;
     spdif_buffer := replicate (Z.to_nat 6144) x00;
     pcm_pointer := 0;
     spdif := ((0%nat, @nil Z) : @spdif_encoder demo_encoder);
     ss := None;
     period_frames := 0;
     encode_frame := None;
     silence := 0 |}.

(** S16_LE stereo at 48 kHz under the driver's hardware constraints: 8
    periods of 4608 bytes, 4 bytes per frame. *)
Definition rt_s16 : snd_pcm_runtime :=
  {| rate := 48000; format := SNDRV_PCM_FORMAT_S16_LE; sample_bits := 16;
     frame_bits := 32; buffer_size := 9216; period_size := 1152 |}.

Definition ss_s16 : snd_pcm_substream :=
  {| runtime := rt_s16; dma_buffer_area := replicate (Z.to_nat 36864) x7f |}.

(** A runtime with a period shorter than one refill; the hardware
    constraints of the driver do not allow it. *)
Definition rt_short_period : snd_pcm_runtime :=
  {| rate := 48000; format := SNDRV_PCM_FORMAT_S16_LE; sample_bits := 16;
     frame_bits := 32; buffer_size := 9216; period_size := 64 |}.

Definition ss_short_period : snd_pcm_substream :=
  {| runtime := rt_short_period; dma_buffer_area := replicate (Z.to_nat 36864) x7f |}.

(** 32 kHz is not one of the six rates. *)
Definition ss_32k : snd_pcm_substream :=
  {| runtime :=
       {| rate := 32000; format := SNDRV_PCM_FORMAT_S16_LE; sample_bits := 16;
          frame_bits := 32; buffer_size := 9216; period_size := 1152 |};
     dma_buffer_area := [] |}.

Definition env_ok : kernel_env :=
  {| clk_set_rate_ret := 0; clk_prepare_enable_ret := 0;
     dma_desc_available := true; dma_submit_cookie := 2 |}.

(** A prepared device that emits silence, the transfer running. *)
Definition dev_prepared : @bcm2708_i2s_dev demo_encoder :=
  {| i2s_dma_cookie := 2;
     spdif_buffer := replicate (Z.to_nat 6144) x00;
     pcm_pointer := 0;
     spdif := ((0%nat, [4; 130; 0; 2; 2]) : @spdif_encoder demo_encoder);
     ss := Some ss_s16;
     period_frames := 0;
     encode_frame := Some spdif_encode_frame_s16le;
     silence := 1 |}.

(** The same device just after the start trigger: it plays. *)
Definition dev_started : @bcm2708_i2s_dev demo_encoder :=
  {| i2s_dma_cookie := 2;
     spdif_buffer := replicate (Z.to_nat 6144) x00;
     pcm_pointer := 0;
     spdif := ((0%nat, [4; 130; 0; 2; 2]) : @spdif_encoder demo_encoder);
     ss := Some ss_s16;
     period_frames := 0;
     encode_frame := Some spdif_encode_frame_s16le;
     silence := 0 |}.

(** Open, prepare and start of a stream, then five refills. *)
Definition playing_session (s : snd_pcm_substream) : list driver_op :=
  [op_open s; op_prepare s env_ok;
   op_trigger s SNDRV_PCM_TRIGGER_START env_ok;
   op_dma_complete 0; op_dma_complete 6144; op_dma_complete 0;
   op_dma_complete 6144; op_dma_complete 0].

(** The probed device after that session: it plays, five refills into
    its first period of 1152 frames, position and period counter at 960. *)
Definition dev_playing : @bcm2708_i2s_dev demo_encoder :=
  {| i2s_dma_cookie := 2;
     spdif_buffer :=
       spdif_buffer
         (@run_ops abi32 demo_encoder (playing_session ss_s16) dev_probed).1;
     pcm_pointer := 960;
     spdif := ((0%nat, [4; 130; 0; 2; 2]) : @spdif_encoder demo_encoder);
     ss := Some ss_s16;
     period_frames := 960;
     encode_frame := Some spdif_encode_frame_s16le;
     silence := 0 |}.

(** A whole session on the probed device: open, prepare, start, five
    refills into the first period of 1152 frames, then a stop. *)
Definition dev_stopped : @bcm2708_i2s_dev demo_encoder :=
  (@run_ops abi32 demo_encoder
     [op_open ss_s16; op_prepare ss_s16 env_ok;
      op_trigger ss_s16 SNDRV_PCM_TRIGGER_START env_ok;
      op_dma_complete 0; op_dma_complete 6144; op_dma_complete 0;
      op_dma_complete 6144; op_dma_complete 0;
      op_trigger ss_s16 SNDRV_PCM_TRIGGER_STOP env_ok] dev_probed).1.

(** A playing device whose period is shorter than one refill. *)
Definition dev_short_period : @bcm2708_i2s_dev demo_encoder :=
  (@run_ops abi32 demo_encoder
     [op_open ss_short_period; op_prepare ss_short_period env_ok;
      op_trigger ss_short_period SNDRV_PCM_TRIGGER_START env_ok]
     dev_probed).1.

(** ** More of the driver: register map, hardware constraints,
       [bcm2708_hw_params], and sequences of completions *)

(** I2S registers *)
Definition BCM2708_I2S_CS_A_REG : Z := 0x00.
Definition BCM2708_I2S_FIFO_A_REG : Z := 0x04.
Definition BCM2708_I2S_MODE_A_REG : Z := 0x08.
Definition BCM2708_I2S_RXC_A_REG : Z := 0x0c.
Definition BCM2708_I2S_TXC_A_REG : Z := 0x10.
Definition BCM2708_I2S_DREQ_A_REG : Z := 0x14.
Definition BCM2708_I2S_INTEN_A_REG : Z := 0x18.
Definition BCM2708_I2S_INTSTC_A_REG : Z := 0x1c.
Definition BCM2708_I2S_GRAY_REG : Z := 0x20.

Definition bcm2708_i2s_volatile_reg (reg : Z) : bool :=
  if reg =? BCM2708_I2S_CS_A_REG then true
  else if reg =? BCM2708_I2S_FIFO_A_REG then true
  else if reg =? BCM2708_I2S_INTSTC_A_REG then true
  else if reg =? BCM2708_I2S_GRAY_REG then true
  else false.

Definition bcm2708_i2s_precious_reg (reg : Z) : bool :=
  if reg =? BCM2708_I2S_FIFO_A_REG then true else false.

(** The fields of [bcm2708_regmap_config] that describe addresses. *)
Record regmap_config := {
  reg_bits : Z;
  reg_stride : Z;
  val_bits : Z;
  max_register : Z;
  precious_reg : Z → bool;
  volatile_reg : Z → bool
}.

Definition bcm2708_regmap_config : regmap_config :=
  {| reg_bits := 32;
     reg_stride := 4;
     val_bits := 32;
     max_register := BCM2708_I2S_GRAY_REG;
     precious_reg := bcm2708_i2s_precious_reg;
     volatile_reg := bcm2708_i2s_volatile_reg |}.

(** The geometry [bcm2708_i2s_pcm_hw] leaves to a stream: two channels
    in frames of 4, 6 or 8 bytes (the sizes the comment on [PCM_BUFSIZE]
    names), periods of exactly [PCM_BUFSIZE/PCM_PERIODES] bytes
    ([period_bytes_min = period_bytes_max]) and exactly [PCM_PERIODES]
    periods ([periods_min = periods_max]). *)
Definition hw_constrained (rt : snd_pcm_runtime) : bool :=
  ((frame_bits rt =? 32) || (frame_bits rt =? 48) || (frame_bits rt =? 64))
  && (frames_to_bytes rt (period_size rt) =? PCM_BUFSIZE / PCM_PERIODES)
  && (buffer_size rt =? PCM_PERIODES * period_size rt).

(** [uint32_t] *)
Definition to_u32 (x : Z) : Z := wrap_unsigned 32 x.

Section HwParams.
Context `{ENC : SpdifEncoder}.

(** Missing from the sources with the rest of spdif-encoder.h: the
    constant [SPDIF_SAMPLE_MASK] and the setter
    [spdif_encoder_set_sample_mask]; both are parameters here. *)
Variable SPDIF_SAMPLE_MASK : Z.
Variable spdif_encoder_set_sample_mask : spdif_encoder → Z → spdif_encoder.

(** The mask [bcm2708_hw_params] computes from [hw_params->msbits]:
<<
      uint32_t sample_mask = SPDIF_SAMPLE_MASK;
      if (hw_params->msbits < 24) {
          sample_mask <<= (24 - hw_params->msbits);
          sample_mask &= SPDIF_SAMPLE_MASK;
      }
>> *)
Definition hw_params_sample_mask (msbits : Z) : Z :=
  let sample_mask := to_u32 SPDIF_SAMPLE_MASK in
  if msbits <? 24 then
    Z.land (to_u32 (Z.shiftl sample_mask (24 - msbits)))
           (to_u32 SPDIF_SAMPLE_MASK)
  else sample_mask.

Inductive hw_params_event :=
| dev_info_sample_mask (m : Z)
| snd_pcm_lib_malloc_pages (bytes : Z).

(** [buffer_bytes] is [params_buffer_bytes(hw_params)], [res] what
    [snd_pcm_lib_malloc_pages] returns. *)
Definition bcm2708_hw_params (dev : bcm2708_i2s_dev)
    (msbits buffer_bytes res : Z)
    : Z * bcm2708_i2s_dev * list hw_params_event :=
  let sample_mask := hw_params_sample_mask msbits in
  (res,
   set_spdif (spdif_encoder_set_sample_mask (spdif dev) sample_mask) dev,
   [dev_info_sample_mask sample_mask; snd_pcm_lib_malloc_pages buffer_bytes]).

End HwParams.

Section DriverRuns.
Context `{ABI : KernelABI} `{ENC : SpdifEncoder}.

(** The channel status [bcm2708_pcm_prepare] hands to
    [spdif_encoder_set_channel_status] once the rate has given [cs3]. *)
Definition prepared_channel_status (rt : snd_pcm_runtime) (cs3 : Z) : list Z :=
  [ SPDIF_CS0_NOT_COPYRIGHT; Z.lor SPDIF_CS1_DDCONV SPDIF_CS1_ORIGINAL; 0;
    cs3; case_sample_bits (sample_bits rt) ].

(** A burst of completions, one per residue. *)
Definition completions (residues : list Z) : list driver_op :=
  map op_dma_complete residues.

Definition is_dmaengine_submit (e : event) : bool :=
  match e with dmaengine_submit => true | _ => false end.

(** Number of transfers submitted in a trace. *)
Fixpoint submit_count (t : list event) : nat :=
  match t with
  | [] => 0
  | e :: t' => (if is_dmaengine_submit e then 1 else 0) + submit_count t'
  end.

Definition is_stop (o : driver_op) : bool :=
  match o with
  | op_trigger _ SNDRV_PCM_TRIGGER_STOP _ => true
  | _ => false
  end.

(** Number of stop triggers in a sequence of operations. *)
Fixpoint stop_count (os : list driver_op) : nat :=
  match os with
  | [] => 0
  | o :: os' => (if is_stop o then 1 else 0) + stop_count os'
  end.

(** [dmaengine_submit] answers with a valid (positive) cookie in this
    operation. *)
Definition submit_succeeds (o : driver_op) : Prop :=
  match o with
  | op_prepare _ env | op_trigger _ _ env => 0 < dma_submit_cookie env
  | _ => True
  end.

(** A ring made of whole refills, of a size an [unsigned long] holds with
    room to spare. *)
Definition ring_of_refills (s : snd_pcm_substream) : Prop :=
  (SPDIF_BUFSIZE_FRAMES / 2 | buffer_size (runtime s))
  ∧ 0 < buffer_size (runtime s) < 2 ^ 30.

Definition opens_ring_of_refills (o : driver_op) : Prop :=
  match o with
  | op_open s => ring_of_refills s
  | _ => True
  end.

(** The stream position is on a refill boundary, and the stream that is
    open, if any, has a ring of whole refills. *)
Definition position_on_refill_boundary (dev : bcm2708_i2s_dev) : Prop :=
  (SPDIF_BUFSIZE_FRAMES / 2 | pcm_pointer dev)
  ∧ 0 ≤ pcm_pointer dev < 2 ^ 30
  ∧ ∀ s, ss dev = Some s → ring_of_refills s.

End DriverRuns.

(** No DMA descriptor to be had. *)
Definition env_no_desc : kernel_env :=
  {| clk_set_rate_ret := 0; clk_prepare_enable_ret := 0;
     dma_desc_available := false; dma_submit_cookie := 2 |}.

(** A prepared device with no transfer pending (after a stop). *)
Definition dev_idle : @bcm2708_i2s_dev demo_encoder :=
  set_i2s_dma_cookie 0 dev_prepared.

(** A silent device whose counter has gone all the way round to -1. *)
Definition dev_wrapping : @bcm2708_i2s_dev demo_encoder :=
  set_silence (-1) dev_prepared.

(** A 24-bit sample mask, and an encoder that has nowhere to keep it. *)
Definition demo_sample_mask : Z := 0xffffff.

Definition demo_set_sample_mask (e : @spdif_encoder demo_encoder) (m : Z)
    : @spdif_encoder demo_encoder := e.

(** ** Arithmetic of the C types *)

Section Proofs.
Context `{ABI : KernelABI} `{ENC : SpdifEncoder}.

Lemma two_pow_long : 2 ^ 32 ≤ 2 ^ BITS_PER_LONG.
Proof. destruct BITS_PER_LONG_cases as [-> | ->]; lia. Qed.

Lemma to_ulong_small x : 0 ≤ x < 2 ^ 32 → to_ulong x = x.
Proof.
  intros Hx. unfold to_ulong, wrap_unsigned.
  pose proof two_pow_long. apply Z.mod_small. lia.
Qed.

Lemma to_int_small x : - 2 ^ 31 ≤ x < 2 ^ 31 → to_int x = x.
Proof.
  intros Hx. unfold to_int, wrap_signed.
  change (2 ^ (32 - 1)) with (2 ^ 31).
  rewrite Z.mod_small; lia.
Qed.

Lemma half_frames_val : SPDIF_BUFSIZE_FRAMES / 2 = 192.
Proof. reflexivity. Qed.

Lemma half_bytes_val : SPDIF_BUFSIZE / 2 = 192 * SPDIF_FRAMESIZE.
Proof.
  unfold SPDIF_BUFSIZE, SPDIF_BUFSIZE_FRAMES.
  change (2 * 192) with 384.
  replace (384 * SPDIF_FRAMESIZE) with (192 * SPDIF_FRAMESIZE * 2) by lia.
  apply Z.div_mul. lia.
Qed.

Lemma HALF_BYTES_eq : HALF_BYTES = (HALF_FRAMES * Z.to_nat SPDIF_FRAMESIZE)%nat.
Proof.
  unfold HALF_BYTES, HALF_FRAMES. rewrite half_bytes_val, half_frames_val.
  pose proof SPDIF_FRAMESIZE_pos. lia.
Qed.

Lemma SPDIF_BUFSIZE_halves : Z.to_nat SPDIF_BUFSIZE = (HALF_BYTES + HALF_BYTES)%nat.
Proof.
  unfold HALF_BYTES. rewrite half_bytes_val.
  unfold SPDIF_BUFSIZE, SPDIF_BUFSIZE_FRAMES.
  pose proof SPDIF_FRAMESIZE_pos. lia.
Qed.

(** ** Records *)

Lemma set_silence_same (d : bcm2708_i2s_dev) : set_silence (silence d) d = d.
Proof. by destruct d. Qed.

Lemma set_ss_same (d : bcm2708_i2s_dev) : set_ss (ss d) d = d.
Proof. by destruct d. Qed.

(** ** Stores into the buffer *)

Lemma list_inserts_window {A} (l fr : list A) (d : nat) :
  (d + length fr ≤ length l)%nat →
  list_inserts d fr l = take d l ++ fr ++ drop (d + length fr) l.
Proof.
  intros Hle.
  rewrite <-(take_drop d l) at 1.
  assert (Hd : length (take d l) = d) by (rewrite length_take; lia).
  rewrite <-(Nat.add_0_r d) at 1. rewrite <-Hd at 1.
  rewrite list_inserts_app_r. f_equal.
  rewrite <-(take_drop (length fr) (drop d l)) at 1.
  rewrite list_inserts_0_r.
  - by rewrite drop_drop.
  - rewrite length_take, length_drop. lia.
Qed.

Lemma window_take {A} (l fr : list A) (d : nat) :
  (d ≤ length l)%nat →
  take (d + length fr) (take d l ++ fr ++ drop (d + length fr) l)
  = take d l ++ fr.
Proof.
  intros. rewrite app_assoc. rewrite take_app_length'; [done|].
  rewrite length_app, length_take. lia.
Qed.

Lemma window_drop {A} (l fr : list A) (d k : nat) :
  (d ≤ length l)%nat →
  drop (d + length fr + k) (take d l ++ fr ++ drop (d + length fr) l)
  = drop (d + length fr + k) l.
Proof.
  intros. rewrite app_assoc.
  rewrite drop_app_ge by (rewrite length_app, length_take; lia).
  rewrite length_app, length_take, drop_drop. f_equal. lia.
Qed.

Lemma encode_seq_length f srcs : ∀ e,
  length (encode_seq f e srcs).2 = (length srcs * Z.to_nat SPDIF_FRAMESIZE)%nat.
Proof.
  induction srcs as [|s rest IH]; intros e; [done|].
  cbn [encode_seq snd length]. rewrite length_app, spdif_encode_length, IH. lia.
Qed.

Lemma loop_sources_length mem n : ∀ src stride,
  length (loop_sources mem src stride n) = n.
Proof. induction n as [|n IH]; intros; cbn; [done|]. by rewrite IH. Qed.

(** One loop of the driver stores, at [dst], the frames encoded from the
    loop's sources, and nothing else. *)
Lemma encode_frames_spec f n : ∀ e buf dst mem src stride,
  0 ≤ dst →
  (Z.to_nat dst + n * Z.to_nat SPDIF_FRAMESIZE ≤ length buf)%nat →
  encode_frames f n e buf dst mem src stride =
    ((encode_seq f e (loop_sources mem src stride n)).1,
     take (Z.to_nat dst) buf
       ++ (encode_seq f e (loop_sources mem src stride n)).2
       ++ drop (Z.to_nat dst + n * Z.to_nat SPDIF_FRAMESIZE) buf).
Proof.
  induction n as [|n IH]; intros e buf dst mem src stride Hdst Hlen.
  - cbn. rewrite Nat.add_0_r, take_drop. done.
  - cbn [encode_frames loop_sources encode_seq fst snd].
    set (r := spdif_encode f e (drop (Z.to_nat src) mem)).
    pose proof (spdif_encode_length f e (drop (Z.to_nat src) mem)) as Hfr.
    fold r in Hfr.
    pose proof SPDIF_FRAMESIZE_pos as Hpos.
    assert (Hst : store_bytes buf dst r.2
                  = take (Z.to_nat dst) buf ++ r.2
                      ++ drop (Z.to_nat dst + length r.2) buf).
    { unfold store_bytes. apply list_inserts_window. lia. }
    rewrite IH; [|lia|].
    2:{ unfold store_bytes. rewrite length_inserts. lia. }
    f_equal.
    replace (Z.to_nat (dst + SPDIF_FRAMESIZE))
      with (Z.to_nat dst + length r.2)%nat by lia.
    rewrite Hst.
    rewrite window_take by lia.
    rewrite window_drop; [|lia].
    rewrite <-!app_assoc. do 3 f_equal.
    apply (f_equal (λ k, drop k buf)). lia.
Qed.

(** ** Sources of the loops *)

Lemma loop_sources_zero n : loop_sources zero 0 0 n = replicate n zero.
Proof.
  induction n as [|n IH]; [done|].
  cbn [loop_sources replicate]. rewrite Z.add_0_r, IH. done.
Qed.

Lemma frames_to_bytes_add rt a b :
  frame_bits rt mod 8 = 0 →
  frames_to_bytes rt a + frames_to_bytes rt b = frames_to_bytes rt (a + b).
Proof.
  intros H8. unfold frames_to_bytes.
  apply Z.mod_divide in H8; [|lia]. destruct H8 as [k ->].
  rewrite !Z.mul_assoc, !Z.div_mul by lia. lia.
Qed.

Lemma ring_frames_succ s first n :
  ring_frames s first (S n)
  = drop (Z.to_nat (frames_to_bytes (runtime s) first)) (dma_buffer_area s)
      :: ring_frames s (first + 1) n.
Proof.
  unfold ring_frames. cbn [seq map]. rewrite Z.add_0_r. f_equal.
  rewrite <-seq_shift, map_map. apply map_ext. intros i.
  do 3 f_equal. lia.
Qed.

(** The PCM loop walks the ring frame by frame. *)
Lemma loop_sources_ring s n : ∀ first,
  frame_bits (runtime s) mod 8 = 0 →
  loop_sources (dma_buffer_area s) (frames_to_bytes (runtime s) first)
    (frames_to_bytes (runtime s) 1) n
  = ring_frames s first n.
Proof.
  induction n as [|n IH]; intros first H8; [done|].
  rewrite ring_frames_succ. cbn [loop_sources]. f_equal.
  rewrite frames_to_bytes_add by done. by apply IH.
Qed.

(** ** The half chosen for the refill *)

Lemma refill_offset_cases residue :
  (residue ≤ SPDIF_BUFSIZE / 2 ∧ refill_offset residue = 0)
  ∨ (SPDIF_BUFSIZE / 2 < residue ∧ refill_offset residue = SPDIF_BUFSIZE / 2).
Proof.
  unfold refill_offset.
  destruct (Z.leb_spec residue (SPDIF_BUFSIZE / 2)); [left | right]; done.
Qed.

Lemma half_bytes_pos : 0 < SPDIF_BUFSIZE / 2.
Proof. rewrite half_bytes_val. pose proof SPDIF_FRAMESIZE_pos. lia. Qed.

Lemma refill_offset_range residue :
  0 ≤ refill_offset residue
  ∧ (Z.to_nat (refill_offset residue) + HALF_BYTES ≤ Z.to_nat SPDIF_BUFSIZE)%nat.
Proof.
  rewrite SPDIF_BUFSIZE_halves. pose proof half_bytes_pos.
  destruct (refill_offset_cases residue) as [[_ ->] | [_ ->]];
    unfold HALF_BYTES; lia.
Qed.

(** What one refill loop of the callback leaves in the buffer. *)
Lemma refill_loop_spec f e buf residue mem src stride :
  length buf = Z.to_nat SPDIF_BUFSIZE →
  encode_frames f (Z.to_nat (SPDIF_BUFSIZE_FRAMES / 2)) e buf
    (refill_offset residue) mem src stride
  = ((encode_seq f e (loop_sources mem src stride HALF_FRAMES)).1,
     take (Z.to_nat (refill_offset residue)) buf
       ++ (encode_seq f e (loop_sources mem src stride HALF_FRAMES)).2
       ++ drop (Z.to_nat (refill_offset residue) + HALF_BYTES) buf).
Proof.
  intros Hlen. destruct (refill_offset_range residue) as [H0 Hle].
  fold HALF_FRAMES. rewrite encode_frames_spec; [|done|].
  - by rewrite <-HALF_BYTES_eq.
  - rewrite <-HALF_BYTES_eq. lia.
Qed.

(** The bytes of a buffer outside a rewritten window are the old ones,
    and the window holds the new ones. *)
Lemma window_lookup_outside {A} (l fr : list A) (d j : nat) :
  (d + length fr ≤ length l)%nat →
  ¬ (d ≤ j < d + length fr)%nat →
  (take d l ++ fr ++ drop (d + length fr) l) !! j = l !! j.
Proof.
  intros Hle Hj. rewrite <-list_inserts_window by done.
  destruct (decide (j < d)%nat).
  - by apply list_lookup_inserts_lt.
  - apply list_lookup_inserts_ge. lia.
Qed.

Lemma window_length {A} (l fr : list A) (d : nat) :
  (d + length fr ≤ length l)%nat →
  length (take d l ++ fr ++ drop (d + length fr) l) = length l.
Proof.
  intros. rewrite !length_app, length_take, length_drop. lia.
Qed.

Lemma window_content {A} (l fr : list A) (d : nat) :
  (d + length fr ≤ length l)%nat →
  take (length fr) (drop d (take d l ++ fr ++ drop (d + length fr) l)) = fr.
Proof.
  intros. rewrite drop_app_length' by (rewrite length_take; lia).
  by rewrite take_app_length.
Qed.

(** ** The completion callback, case by case *)

Lemma dma_complete_unprepared dev residue :
  encode_frame dev = None →
  bcm2708_i2s_dma_complete dev residue = (dev, []).
Proof. intros Hf. unfold bcm2708_i2s_dma_complete. by rewrite Hf. Qed.

Lemma dma_complete_silence dev residue f :
  encode_frame dev = Some f →
  silence dev ≠ 0 →
  length (spdif_buffer dev) = Z.to_nat SPDIF_BUFSIZE →
  bcm2708_i2s_dma_complete dev residue =
    (let r := encode_seq f (spdif dev) (replicate HALF_FRAMES zero) in
     set_spdif_buffer
       (take (Z.to_nat (refill_offset residue)) (spdif_buffer dev)
          ++ r.2
          ++ drop (Z.to_nat (refill_offset residue) + HALF_BYTES)
               (spdif_buffer dev))
       (set_spdif r.1 (set_silence (to_int (silence dev + 1)) dev)),
     []).
Proof.
  intros Hf Hs Hlen. unfold bcm2708_i2s_dma_complete, atomic_inc_not_zero.
  rewrite Hf. apply Z.eqb_neq in Hs. rewrite Hs. cbn [fst snd].
  cbn [set_silence spdif spdif_buffer].
  rewrite refill_loop_spec by exact Hlen. rewrite loop_sources_zero.
  generalize (encode_seq f (spdif dev) (replicate HALF_FRAMES zero)).
  intros [e' fr]. cbn [fst snd]. reflexivity.
Qed.

Lemma dma_complete_closed dev residue f :
  encode_frame dev = Some f → silence dev = 0 → ss dev = None →
  bcm2708_i2s_dma_complete dev residue = (dev, []).
Proof.
  intros Hf Hs Hss. unfold bcm2708_i2s_dma_complete, atomic_inc_not_zero.
  rewrite Hf, Hs. cbn [Z.eqb fst snd set_silence ss]. rewrite Hss.
  rewrite <-Hs. rewrite set_silence_same. reflexivity.
Qed.

Lemma dma_complete_pcm dev residue f s :
  encode_frame dev = Some f →
  silence dev = 0 →
  ss dev = Some s →
  length (spdif_buffer dev) = Z.to_nat SPDIF_BUFSIZE →
  let r := bcm2708_i2s_dma_complete dev residue in
  let fr := encode_seq f (spdif dev)
              (loop_sources (dma_buffer_area s)
                 (frames_to_bytes (runtime s) (pcm_pointer dev))
                 (frames_to_bytes (runtime s) 1) HALF_FRAMES) in
  spdif_buffer r.1
    = take (Z.to_nat (refill_offset residue)) (spdif_buffer dev)
        ++ fr.2
        ++ drop (Z.to_nat (refill_offset residue) + HALF_BYTES)
             (spdif_buffer dev)
  ∧ spdif r.1 = fr.1
  ∧ pcm_pointer r.1
    = (if buffer_size (runtime s) <=? advanced_pcm_pointer dev
       then to_ulong (advanced_pcm_pointer dev - buffer_size (runtime s))
       else advanced_pcm_pointer dev)
  ∧ period_frames r.1
    = (if period_size (runtime s) <=? to_ulong (advanced_period_frames dev)
       then to_int (to_ulong (advanced_period_frames dev)
                    - period_size (runtime s))
       else advanced_period_frames dev)
  ∧ r.2
    = (if period_size (runtime s) <=? to_ulong (advanced_period_frames dev)
       then [snd_pcm_period_elapsed] else [])
  ∧ silence r.1 = 0 ∧ ss r.1 = Some s ∧ encode_frame r.1 = Some f
  ∧ i2s_dma_cookie r.1 = i2s_dma_cookie dev.
Proof.
  intros Hf Hs Hss Hlen.
  unfold bcm2708_i2s_dma_complete, atomic_inc_not_zero.
  rewrite Hf, Hs. cbn [fst snd Z.eqb].
  cbn [set_silence ss spdif spdif_buffer pcm_pointer]. rewrite Hss.
  rewrite refill_loop_spec by exact Hlen.
  generalize (encode_seq f (spdif dev)
                (loop_sources (dma_buffer_area s)
                   (frames_to_bytes (runtime s) (pcm_pointer dev))
                   (frames_to_bytes (runtime s) 1) HALF_FRAMES)).
  intros [e' fr].
  unfold advanced_period_frames, advanced_pcm_pointer.
  cbn [fst snd set_spdif set_spdif_buffer set_pcm_pointer pcm_pointer
       period_frames].
  destruct (period_size (runtime s) <=? _);
    cbn [fst snd set_period_frames spdif_buffer spdif pcm_pointer
         period_frames silence ss encode_frame i2s_dma_cookie];
    repeat split; try reflexivity; assumption.
Qed.

(** ** Submission of the cyclic transfer *)

(** [bcm2708_i2s_dmaengine_prepare_and_submit] touches the buffer, the
    encoder and the cookie only. *)
Lemma prepare_and_submit_keeps dev env :
  let d := (bcm2708_i2s_dmaengine_prepare_and_submit dev env).1.2 in
  pcm_pointer d = pcm_pointer dev
  ∧ period_frames d = period_frames dev
  ∧ silence d = silence dev
  ∧ ss d = ss dev
  ∧ encode_frame d = encode_frame dev.
Proof.
  unfold bcm2708_i2s_dmaengine_prepare_and_submit.
  destruct (0 <? i2s_dma_cookie dev); [done|].
  destruct (encode_frame dev) as [f|] eqn:Hf.
  - generalize (encode_frames f (Z.to_nat SPDIF_BUFSIZE_FRAMES) (spdif dev)
                  (spdif_buffer dev) 0 zero 0 0).
    intros [e' b']. destruct (dma_desc_available env); cbn; by rewrite Hf.
  - destruct (dma_desc_available env); cbn; by rewrite Hf.
Qed.

Lemma case_rate_unsupported r :
  r ∉ [44100; 48000; 88200; 96000; 176400; 192000] → case_rate r = None.
Proof.
  rewrite !not_elem_of_cons. intros (?&?&?&?&?&?&_).
  unfold case_rate.
  repeat (match goal with
          | |- context [?a =? ?b] =>
              destruct (Z.eqb_spec a b); [congruence|]
          end).
  reflexivity.
Qed.

Lemma case_format_unsupported fmt :
  fmt ∉ [SNDRV_PCM_FORMAT_S16_LE; SNDRV_PCM_FORMAT_S20_LE;
         SNDRV_PCM_FORMAT_S24_LE; SNDRV_PCM_FORMAT_S20_3LE;
         SNDRV_PCM_FORMAT_S24_3LE; SNDRV_PCM_FORMAT_S32_LE] →
  case_format fmt = None.
Proof.
  rewrite !not_elem_of_cons. intros (?&?&?&?&?&?&_).
  destruct fmt; done.
Qed.

(** ** The buffer keeps the size [bcm2708_i2s_probe] allocated *)

Lemma encode_frames_length f n : ∀ e buf dst mem src stride,
  length (encode_frames f n e buf dst mem src stride).2 = length buf.
Proof.
  induction n as [|n IH]; intros; cbn [encode_frames snd]; [done|].
  rewrite IH. unfold store_bytes. apply length_inserts.
Qed.

Lemma prepare_and_submit_buffer_length dev env :
  length (spdif_buffer (bcm2708_i2s_dmaengine_prepare_and_submit dev env).1.2)
  = length (spdif_buffer dev).
Proof.
  unfold bcm2708_i2s_dmaengine_prepare_and_submit.
  destruct (0 <? i2s_dma_cookie dev); [done|].
  destruct (encode_frame dev) as [f|].
  - destruct (dma_desc_available env); cbn [fst snd set_i2s_dma_cookie
      set_spdif_buffer set_spdif spdif_buffer]; apply encode_frames_length.
  - by destruct (dma_desc_available env).
Qed.

Lemma dma_complete_buffer_length dev residue :
  length (spdif_buffer (bcm2708_i2s_dma_complete dev residue).1)
  = length (spdif_buffer dev).
Proof.
  unfold bcm2708_i2s_dma_complete.
  destruct (encode_frame dev) as [f|]; [|done].
  destruct (atomic_inc_not_zero (silence dev)) as [[|] v]; cbn [fst snd].
  - cbn [set_spdif_buffer spdif_buffer]. rewrite encode_frames_length. done.
  - cbn [set_silence ss]. destruct (ss dev) as [s|]; [|done].
    match goal with |- context [if ?c then _ else _] => destruct c end;
      cbn [fst set_period_frames set_pcm_pointer set_spdif_buffer
           spdif_buffer];
      rewrite encode_frames_length; done.
Qed.

(** No operation of the driver changes the size of the S/PDIF buffer. *)
Lemma run_op_buffer_length o dev :
  length (spdif_buffer (run_op o dev).1) = length (spdif_buffer dev).
Proof.
  destruct o as [s | s | s env | s cmd env | residue]; cbn [run_op fst snd].
  - done.
  - done.
  - unfold bcm2708_pcm_prepare.
    destruct (case_rate _); [|done]. destruct (case_format _); [|done].
    cbn [fst snd]. rewrite prepare_and_submit_buffer_length. done.
  - destruct cmd; try done.
    unfold bcm2708_pcm_trigger. cbn [fst snd].
    rewrite prepare_and_submit_buffer_length. done.
  - apply dma_complete_buffer_length.
Qed.

Lemma run_ops_buffer_length os : ∀ dev,
  length (spdif_buffer (run_ops os dev).1) = length (spdif_buffer dev).
Proof.
  induction os as [|o os IH]; intros dev; cbn [run_ops fst]; [done|].
  rewrite IH. apply run_op_buffer_length.
Qed.

(** ** Who raises period-elapsed *)

Lemma period_elapsed_count_app t1 t2 :
  period_elapsed_count (t1 ++ t2)
  = (period_elapsed_count t1 + period_elapsed_count t2)%nat.
Proof.
  induction t1 as [|e t1 IH]; cbn [app period_elapsed_count]; [done|].
  rewrite IH. lia.
Qed.

Lemma prepare_and_submit_no_period_elapsed dev env :
  period_elapsed_count
    (bcm2708_i2s_dmaengine_prepare_and_submit dev env).2 = 0%nat.
Proof.
  unfold bcm2708_i2s_dmaengine_prepare_and_submit.
  destruct (0 <? i2s_dma_cookie dev); [done|].
  by destruct (dma_desc_available env).
Qed.

Lemma init_clock_no_period_elapsed env r :
  period_elapsed_count (bcm_2708_i2s_init_clock env r) = 0%nat.
Proof.
  unfold bcm_2708_i2s_init_clock.
  by destruct (clk_set_rate_ret env =? 0),
              (clk_prepare_enable_ret env =? 0).
Qed.

(** Only the completion callback raises period-elapsed: no operation of
    the control path does. *)
Lemma control_path_no_period_elapsed o dev :
  is_control_path o = true →
  period_elapsed_count (run_op o dev).2 = 0%nat.
Proof.
  destruct o as [s | s | s env | s cmd env | residue]; intros Hc;
    cbn [run_op fst snd]; try done.
  - unfold bcm2708_pcm_prepare.
    destruct (case_rate _); [|done]. destruct (case_format _); [|done].
    cbn [fst snd].
    rewrite !period_elapsed_count_app, init_clock_no_period_elapsed,
      prepare_and_submit_no_period_elapsed.
    by destruct (_ =? 0).
  - destruct cmd; try done.
    unfold bcm2708_pcm_trigger. cbn [fst snd].
    rewrite period_elapsed_count_app, prepare_and_submit_no_period_elapsed.
    by destruct (1 <? _).
Qed.

(** ** The claims *)

(** C10. If the completion callback runs before any successful prepare
    ([encode_frame] is NULL), it returns at once: the device structure
    (S/PDIF buffer, [pcm_pointer], [period_frames], the silence counter
    and all the rest) is unchanged and no kernel call is made. *)
Theorem C10_dma_complete_unprepared dev residue :
  encode_frame dev = None →
  bcm2708_i2s_dma_complete dev residue = (dev, []).
Proof. apply dma_complete_unprepared. Qed.

(** C9. With a transfer already submitted ([i2s_dma_cookie > 0]),
    [bcm2708_i2s_dmaengine_prepare_and_submit] returns 0 with the device
    structure unchanged (no byte of the S/PDIF buffer written) and without
    any call to the DMA engine; calling it again, whatever the kernel would
    answer, is again this no-op. *)
Theorem C9_prepare_and_submit_pending dev env :
  0 < i2s_dma_cookie dev →
  bcm2708_i2s_dmaengine_prepare_and_submit dev env = (0, dev, [])
  ∧ ∀ env',
      bcm2708_i2s_dmaengine_prepare_and_submit
        (bcm2708_i2s_dmaengine_prepare_and_submit dev env).1.2 env'
      = (0, dev, []).
Proof.
  intros Hc.
  assert (He : ∀ e, bcm2708_i2s_dmaengine_prepare_and_submit dev e
                    = (0, dev, [])).
  { intros e. unfold bcm2708_i2s_dmaengine_prepare_and_submit.
    apply Z.ltb_lt in Hc. by rewrite Hc. }
  split; [apply He|]. intros env'. rewrite (He env). apply He.
Qed.

(** C7. A prepare with a sampling rate outside 44100, 48000, 88200,
    96000, 176400, 192000, or with a format outside the six the driver
    encodes, returns -EINVAL with the device structure unchanged: no
    channel status and no encoder installed, no frame encoded; the only
    call it makes is the one [dev_err]. *)
Theorem C7_prepare_rejects s dev env :
  rate (runtime s) ∉ [44100; 48000; 88200; 96000; 176400; 192000]
  ∨ format (runtime s) ∉
      [SNDRV_PCM_FORMAT_S16_LE; SNDRV_PCM_FORMAT_S20_LE;
       SNDRV_PCM_FORMAT_S24_LE; SNDRV_PCM_FORMAT_S20_3LE;
       SNDRV_PCM_FORMAT_S24_3LE; SNDRV_PCM_FORMAT_S32_LE] →
  ∃ m, bcm2708_pcm_prepare s dev env = (- EINVAL, dev, [dev_err m]).
Proof.
  intros [Hr | Hfmt]; unfold bcm2708_pcm_prepare.
  - rewrite (case_rate_unsupported _ Hr). eauto.
  - destruct (case_rate (rate (runtime s))); [|eauto].
    rewrite (case_format_unsupported _ Hfmt). eauto.
Qed.

(** C5. A stream-start trigger returns 0 and leaves [pcm_pointer] at 0,
    [period_frames] at 0 and the silence counter at 0; the exchange hands
    back the counter's prior value, which decides the message logged
    first. *)
Theorem C5_trigger_start s dev env :
  let r := bcm2708_pcm_trigger s dev SNDRV_PCM_TRIGGER_START env in
  r.1.1 = 0
  ∧ pcm_pointer r.1.2 = 0
  ∧ period_frames r.1.2 = 0
  ∧ silence r.1.2 = 0
  ∧ (atomic_xchg (silence dev) 0).1 = silence dev
  ∧ head r.2
    = Some (dev_info
              (if 1 <? silence dev
               then msg_start_silenced
                      (Z.quot (to_int (to_int (silence dev + 1)
                                       * SPDIF_BUFSIZE_FRAMES)) 2)
               else msg_start)).
Proof.
  unfold bcm2708_pcm_trigger. cbn [fst snd atomic_xchg].
  set (d := set_silence 0 (set_period_frames 0 (set_pcm_pointer 0 dev))).
  destruct (prepare_and_submit_keeps d env) as (Hp & Hpf & Hs & _).
  cbn [set_period_frames set_pcm_pointer silence].
  repeat split; try done.
  by destruct (1 <? silence dev).
Qed.

(** The buffer after a completion, whichever branch ran: the old buffer
    with the selected half replaced by [HALF_FRAMES] encoded frames, or the
    old buffer. *)
Lemma dma_complete_buffer dev residue :
  length (spdif_buffer dev) = Z.to_nat SPDIF_BUFSIZE →
  let r := bcm2708_i2s_dma_complete dev residue in
  (spdif_buffer r.1 = spdif_buffer dev ∧ spdif r.1 = spdif dev
   ∧ (encode_frame dev = None ∨ (silence dev = 0 ∧ ss dev = None)))
  ∨ (∃ f srcs,
       encode_frame dev = Some f
       ∧ (silence dev ≠ 0 ∨ ss dev ≠ None)
       ∧ length srcs = HALF_FRAMES
       ∧ spdif r.1 = (encode_seq f (spdif dev) srcs).1
       ∧ spdif_buffer r.1
         = take (Z.to_nat (refill_offset residue)) (spdif_buffer dev)
             ++ (encode_seq f (spdif dev) srcs).2
             ++ drop (Z.to_nat (refill_offset residue) + HALF_BYTES)
                  (spdif_buffer dev)).
Proof.
  intros Hlen r. subst r.
  destruct (encode_frame dev) as [f|] eqn:Hf.
  2:{ left. rewrite dma_complete_unprepared by done. auto. }
  destruct (decide (silence dev = 0)) as [Hs | Hs].
  - destruct (ss dev) as [s|] eqn:Hss.
    + right.
      destruct (dma_complete_pcm dev residue f s Hf Hs Hss Hlen)
        as (Hb & He & _).
      eexists f, _. split; [done|]. split; [right; congruence|].
      split; [apply loop_sources_length|]. split; [exact He | exact Hb].
    + left. rewrite (dma_complete_closed dev residue f) by done. auto.
  - right. rewrite (dma_complete_silence dev residue f) by done.
    eexists f, _. split; [done|]. split; [by left|].
    split; [apply length_replicate|]. cbn [fst snd set_spdif_buffer
      set_spdif spdif spdif_buffer]. split; reflexivity.
Qed.

(** C2. The half a completion refills is half 0 (offset 0) exactly when
    the residue is at most [SPDIF_BUFSIZE/2], and half 1 (offset
    [SPDIF_BUFSIZE/2], which is not 0) otherwise: the freshly encoded
    frames (of silence, or of the ring from [pcm_pointer] on) are the bytes
    of that half after the callback, and the other half holds the bytes it
    held before. *)
Theorem C2_half_selection dev residue f srcs :
  encode_frame dev = Some f →
  length (spdif_buffer dev) = Z.to_nat SPDIF_BUFSIZE →
  (silence dev ≠ 0 ∧ srcs = replicate HALF_FRAMES zero)
  ∨ (∃ s, silence dev = 0 ∧ ss dev = Some s
          ∧ frame_bits (runtime s) mod 8 = 0
          ∧ srcs = ring_frames s (pcm_pointer dev) HALF_FRAMES) →
  let buf' := spdif_buffer (bcm2708_i2s_dma_complete dev residue).1 in
  let frames := (encode_seq f (spdif dev) srcs).2 in
  length frames = HALF_BYTES
  ∧ SPDIF_BUFSIZE / 2 ≠ 0
  ∧ (residue ≤ SPDIF_BUFSIZE / 2 →
       refill_offset residue = 0
       ∧ take HALF_BYTES buf' = frames
       ∧ drop HALF_BYTES buf' = drop HALF_BYTES (spdif_buffer dev))
  ∧ (SPDIF_BUFSIZE / 2 < residue →
       refill_offset residue = SPDIF_BUFSIZE / 2
       ∧ take HALF_BYTES buf' = take HALF_BYTES (spdif_buffer dev)
       ∧ drop HALF_BYTES buf' = frames).
Proof.
  intros Hf Hlen Hsrc. cbv zeta.
  assert (Hbuf :
    spdif_buffer (bcm2708_i2s_dma_complete dev residue).1
    = take (Z.to_nat (refill_offset residue)) (spdif_buffer dev)
        ++ (encode_seq f (spdif dev) srcs).2
        ++ drop (Z.to_nat (refill_offset residue) + HALF_BYTES)
             (spdif_buffer dev)
    ∧ length srcs = HALF_FRAMES).
  { destruct Hsrc as [[Hs ->] | (s & Hs & Hss & H8 & ->)].
    - rewrite (dma_complete_silence dev residue f Hf Hs Hlen).
      cbn [fst set_spdif_buffer spdif_buffer].
      split; [reflexivity | apply length_replicate].
    - destruct (dma_complete_pcm dev residue f s Hf Hs Hss Hlen) as (Hb & _).
      rewrite Hb, loop_sources_ring by exact H8.
      split; [reflexivity|].
      unfold ring_frames. by rewrite length_map, length_seq. }
  destruct Hbuf as [Hb Hn].
  pose proof (encode_seq_length f srcs (spdif dev)) as HL.
  rewrite Hn, <-HALF_BYTES_eq in HL.
  rewrite Hb. clear Hb.
  generalize dependent (encode_seq f (spdif dev) srcs).
  intros [e' fr] HL. cbn [snd] in *.
  pose proof half_bytes_pos as Hpos.
  pose proof SPDIF_BUFSIZE_halves as Hhalves.
  split; [exact HL|]. split; [lia|]. split.
  - intros Hr.
    destruct (refill_offset_cases residue) as [[_ Ho] | [? _]]; [|lia].
    rewrite Ho. split; [reflexivity|].
    rewrite Z2Nat.inj_0, take_0, app_nil_l, Nat.add_0_l.
    split.
    + rewrite <-HL. apply take_app_length.
    + rewrite <-HL at 1. apply drop_app_length.
  - intros Hr.
    destruct (refill_offset_cases residue) as [[? _] | [_ Ho]]; [lia|].
    rewrite Ho. split; [reflexivity|].
    fold HALF_BYTES.
    assert (Ht : length (take HALF_BYTES (spdif_buffer dev)) = HALF_BYTES)
      by (rewrite length_take; lia).
    rewrite (drop_ge (spdif_buffer dev) (HALF_BYTES + HALF_BYTES)) by lia.
    rewrite app_nil_r.
    split.
    + rewrite <-Ht at 1. apply take_app_length.
    + rewrite <-Ht at 1. apply drop_app_length.
Qed.

(** C8. A completion writes only inside the selected half: the buffer
    keeps its length and every byte outside
    [offset, offset + SPDIF_BUFSIZE/2) is the old one. The refill is done
    when the callback returns: if it refilled at all, the state it returns
    holds all [SPDIF_BUFSIZE_FRAMES/2] frames in the half, and the encoder
    that has produced them. *)
Theorem C8_other_half_untouched dev residue :
  length (spdif_buffer dev) = Z.to_nat SPDIF_BUFSIZE →
  let r := bcm2708_i2s_dma_complete dev residue in
  let off := Z.to_nat (refill_offset residue) in
  length (spdif_buffer r.1) = length (spdif_buffer dev)
  ∧ (∀ j : nat, ¬ (off ≤ j < off + HALF_BYTES)%nat →
       spdif_buffer r.1 !! j = spdif_buffer dev !! j)
  ∧ (∀ f, encode_frame dev = Some f → silence dev ≠ 0 ∨ ss dev ≠ None →
       ∃ srcs, length srcs = HALF_FRAMES
         ∧ take HALF_BYTES (drop off (spdif_buffer r.1))
           = (encode_seq f (spdif dev) srcs).2
         ∧ spdif r.1 = (encode_seq f (spdif dev) srcs).1).
Proof.
  intros Hlen r off. subst r off.
  destruct (refill_offset_range residue) as [_ Hrange].
  destruct (dma_complete_buffer dev residue Hlen)
    as [(Hb & _ & Hcase) | (f' & srcs & Hf' & _ & Hn & He & Hb)].
  - rewrite Hb. split; [done|]. split; [done|].
    intros f Hf [Hs | Hss]; destruct Hcase as [? | [? ?]]; congruence.
  - assert (Hfl : length (encode_seq f' (spdif dev) srcs).2 = HALF_BYTES).
    { rewrite encode_seq_length, Hn. symmetry. apply HALF_BYTES_eq. }
    rewrite Hb. rewrite <-Hfl.
    split; [apply window_length; lia|].
    split; [intros j Hj; apply window_lookup_outside; lia|].
    intros f Hf _. assert (f = f') as -> by congruence.
    exists srcs. split; [done|]. split; [|done].
    apply window_content. lia.
Qed.

(** The silence counter after a completion. *)
Lemma dma_complete_counter dev residue :
  silence (bcm2708_i2s_dma_complete dev residue).1
  = match encode_frame dev with
    | None => silence dev
    | Some _ => (atomic_inc_not_zero (silence dev)).2
    end.
Proof.
  unfold bcm2708_i2s_dma_complete.
  destruct (encode_frame dev) as [f|]; [|reflexivity].
  unfold atomic_inc_not_zero.
  destruct (silence dev =? 0); cbn [fst snd].
  - cbn [set_silence ss]. destruct (ss dev) as [s|]; [|reflexivity].
    match goal with
    | |- context [encode_frames ?a ?b ?c ?d ?e ?g ?h ?i] =>
        generalize (encode_frames a b c d e g h i)
    end.
    intros [e' b'].
    match goal with |- context [if ?c then _ else _] => destruct c end;
      reflexivity.
  - match goal with
    | |- context [encode_frames ?a ?b ?c ?d ?e ?g ?h ?i] =>
        generalize (encode_frames a b c d e g h i)
    end.
    intros [e' b']. reflexivity.
Qed.

(** With the counter nonzero the callback never reads [dev->ss]. *)
Lemma dma_complete_ignores_stream dev residue x :
  silence dev ≠ 0 →
  bcm2708_i2s_dma_complete (set_ss x dev) residue
  = (set_ss x (bcm2708_i2s_dma_complete dev residue).1,
     (bcm2708_i2s_dma_complete dev residue).2).
Proof.
  intros Hs. unfold bcm2708_i2s_dma_complete.
  cbn [set_ss encode_frame silence spdif spdif_buffer].
  destruct (encode_frame dev) as [f|]; [|reflexivity].
  unfold atomic_inc_not_zero. apply Z.eqb_neq in Hs. rewrite Hs.
  cbn [fst snd set_silence set_ss spdif spdif_buffer].
  match goal with
  | |- context [encode_frames ?a ?b ?c ?d ?e ?g ?h ?i] =>
      generalize (encode_frames a b c d e g h i)
  end.
  intros [e' b']. reflexivity.
Qed.

(** With the counter nonzero the callback raises nothing and leaves the
    stream position alone. *)
Lemma dma_complete_quiet dev residue :
  silence dev ≠ 0 →
  (bcm2708_i2s_dma_complete dev residue).2 = []
  ∧ pcm_pointer (bcm2708_i2s_dma_complete dev residue).1 = pcm_pointer dev
  ∧ period_frames (bcm2708_i2s_dma_complete dev residue).1
    = period_frames dev.
Proof.
  intros Hs. unfold bcm2708_i2s_dma_complete.
  destruct (encode_frame dev) as [f|]; [|done].
  unfold atomic_inc_not_zero. apply Z.eqb_neq in Hs. rewrite Hs.
  cbn [fst snd].
  match goal with
  | |- context [encode_frames ?a ?b ?c ?d ?e ?g ?h ?i] =>
      generalize (encode_frames a b c d e g h i)
  end.
  intros [e' b']. done.
Qed.

Lemma prepare_counter s dev env :
  silence (bcm2708_pcm_prepare s dev env).1.2 = silence dev
  ∨ (silence dev = 0 ∧ silence (bcm2708_pcm_prepare s dev env).1.2 = 1).
Proof.
  unfold bcm2708_pcm_prepare.
  destruct (case_rate _); [|by left].
  destruct (case_format _); [|by left].
  cbn [fst snd].
  match goal with
  | |- context [bcm2708_i2s_dmaengine_prepare_and_submit ?d ?e] =>
      destruct (prepare_and_submit_keeps d e) as (_ & _ & -> & _)
  end.
  unfold atomic_cmpxchg. cbn [fst snd set_silence set_spdif set_encode_frame
    silence].
  destruct (Z.eqb_spec (silence dev) 0); auto.
Qed.

(** C6. The completion callback changes the silence counter only by
    incrementing a nonzero counter; a counter at 0 stays at 0.  Among all
    the operations the kernel can invoke, the only one that takes the
    counter from 0 to a nonzero value is one of the control path: the
    prepare, whose compare-and-exchange sets it to 1. *)
Theorem C6_silence_counter o dev :
  let dev' := (run_op o dev).1 in
  (is_control_path o = false →
     (silence dev = 0 → silence dev' = 0)
     ∧ (silence dev' ≠ silence dev →
          silence dev ≠ 0 ∧ silence dev' = to_int (silence dev + 1)))
  ∧ (silence dev = 0 → silence dev' ≠ 0 →
       is_control_path o = true
       ∧ silence dev' = 1
       ∧ ∃ s env, o = op_prepare s env).
Proof.
  destruct o as [s | s | s env | s cmd env | residue]; cbn [run_op fst snd].
  - split; [done|]. cbn. congruence.
  - split; [done|]. cbn. congruence.
  - split; [done|]. intros H0 Hn.
    destruct (prepare_counter s dev env) as [He | [_ He]]; [congruence|].
    eauto.
  - split; [done|]. intros H0 Hn. exfalso. apply Hn. clear Hn.
    destruct cmd; try (cbn; assumption).
    unfold bcm2708_pcm_trigger. cbn [fst snd].
    match goal with
    | |- context [bcm2708_i2s_dmaengine_prepare_and_submit ?d ?e] =>
        destruct (prepare_and_submit_keeps d e) as (_ & _ & -> & _)
    end.
    reflexivity.
  - rewrite dma_complete_counter. unfold atomic_inc_not_zero.
    split.
    + intros _.
      destruct (encode_frame dev); [|done].
      destruct (Z.eqb_spec (silence dev) 0); cbn [snd]; done.
    + intros H0 Hn. exfalso. apply Hn.
      destruct (encode_frame dev); [|done].
      rewrite H0. reflexivity.
Qed.

(** C1. After a successful prepare ([encode_frame] set), a completion
    with the silence counter nonzero fills the selected half with
    [SPDIF_BUFSIZE_FRAMES/2] frames encoded from the zero sample pair and
    leaves [pcm_pointer] alone; with the counter at 0 and a substream open,
    it fills the half with [SPDIF_BUFSIZE_FRAMES/2] frames encoded from the
    consecutive frames of the PCM ring that start at [pcm_pointer], and
    [pcm_pointer] advances by [SPDIF_BUFSIZE_FRAMES/2] modulo the buffer
    size.  The PCM part is stated for a stream position inside the ring
    and a ring of at least one refill, with whole bytes per frame.  When
    the position and the buffer size are multiples of one refill, as they
    are in the driver (the position starts at 0, a period is 4608 bytes),
    the frames read all lie inside the ring and the position stays such a
    multiple. *)
Theorem C1_refill_contents dev residue f :
  encode_frame dev = Some f →
  length (spdif_buffer dev) = Z.to_nat SPDIF_BUFSIZE →
  let dev' := (bcm2708_i2s_dma_complete dev residue).1 in
  let half :=
    take HALF_BYTES
      (drop (Z.to_nat (refill_offset residue)) (spdif_buffer dev')) in
  (silence dev ≠ 0 →
     half = (encode_seq f (spdif dev) (replicate HALF_FRAMES zero)).2
     ∧ pcm_pointer dev' = pcm_pointer dev)
  ∧ (∀ s, silence dev = 0 → ss dev = Some s →
       frame_bits (runtime s) mod 8 = 0 →
       0 ≤ pcm_pointer dev < buffer_size (runtime s) →
       SPDIF_BUFSIZE_FRAMES / 2 ≤ buffer_size (runtime s) < 2 ^ 30 →
       half = (encode_seq f (spdif dev)
                 (ring_frames s (pcm_pointer dev) HALF_FRAMES)).2
       ∧ pcm_pointer dev'
         = (pcm_pointer dev + SPDIF_BUFSIZE_FRAMES / 2)
             mod buffer_size (runtime s)
       ∧ ((SPDIF_BUFSIZE_FRAMES / 2 | pcm_pointer dev) →
          (SPDIF_BUFSIZE_FRAMES / 2 | buffer_size (runtime s)) →
          pcm_pointer dev + SPDIF_BUFSIZE_FRAMES / 2 ≤ buffer_size (runtime s)
          ∧ (SPDIF_BUFSIZE_FRAMES / 2 | pcm_pointer dev'))).
Proof.
  intros Hf Hlen dev' half. subst dev' half.
  destruct (refill_offset_range residue) as [_ Hrange].
  split.
  - intros Hs. rewrite (dma_complete_silence dev residue f) by done.
    cbn [fst snd set_spdif_buffer set_spdif set_silence spdif_buffer
         pcm_pointer].
    split; [|reflexivity].
    assert (Hfl : length (encode_seq f (spdif dev)
                            (replicate HALF_FRAMES zero)).2 = HALF_BYTES).
    { rewrite encode_seq_length, length_replicate. symmetry.
      apply HALF_BYTES_eq. }
    rewrite <-Hfl. apply window_content. lia.
  - intros s Hs Hss H8 Hp Hbs.
    destruct (dma_complete_pcm dev residue f s Hf Hs Hss Hlen)
      as (Hb & _ & Hptr & _).
    rewrite Hb, Hptr. rewrite loop_sources_ring by done.
    split.
    + assert (Hfl : length (encode_seq f (spdif dev)
                (ring_frames s (pcm_pointer dev) HALF_FRAMES)).2
              = HALF_BYTES).
      { rewrite encode_seq_length. unfold ring_frames.
        rewrite length_map, length_seq. symmetry. apply HALF_BYTES_eq. }
      rewrite <-Hfl. apply window_content. lia.
    + unfold advanced_pcm_pointer. rewrite half_frames_val in *.
      rewrite (to_ulong_small (pcm_pointer dev + 192)) by lia.
      assert (Hmod :
        (if buffer_size (runtime s) <=? pcm_pointer dev + 192
         then to_ulong (pcm_pointer dev + 192 - buffer_size (runtime s))
         else pcm_pointer dev + 192)
        = (pcm_pointer dev + 192) mod buffer_size (runtime s)).
      { destruct (Z.leb_spec (buffer_size (runtime s)) (pcm_pointer dev + 192)).
        - rewrite to_ulong_small by lia. apply Z.mod_unique with 1; lia.
        - symmetry. apply Z.mod_small. lia. }
      rewrite Hmod. split; [reflexivity|].
      intros [a Ha] [b Hdiv].
      assert (Hin : pcm_pointer dev + 192 ≤ buffer_size (runtime s)) by lia.
      split; [exact Hin|].
      destruct (decide (pcm_pointer dev + 192 = buffer_size (runtime s)))
        as [Heq | Hne].
      * rewrite Heq, Z_mod_same_full. apply Z.divide_0_r.
      * rewrite Z.mod_small by lia. exists (a + 1). lia.
Qed.

(** Period accounting for a period of at least one refill. *)
Lemma period_accounting_long_period dev residue f s :
  encode_frame dev = Some f →
  silence dev = 0 →
  ss dev = Some s →
  length (spdif_buffer dev) = Z.to_nat SPDIF_BUFSIZE →
  0 ≤ period_frames dev < period_size (runtime s) →
  SPDIF_BUFSIZE_FRAMES / 2 ≤ period_size (runtime s) < 2 ^ 30 →
  period_accounting_exact dev residue s
  ∧ threshold_crossings (period_frames dev) (period_size (runtime s)) ≤ 1
  ∧ 0 ≤ period_frames (bcm2708_i2s_dma_complete dev residue).1
      < period_size (runtime s).
Proof.
  intros Hf Hs Hss Hlen Hpf Hps. unfold period_accounting_exact.
  destruct (dma_complete_pcm dev residue f s Hf Hs Hss Hlen)
    as (_ & _ & _ & Hpfr & Hev & _).
  cbv zeta. rewrite Hpfr, Hev. clear Hpfr Hev.
  unfold advanced_period_frames, threshold_crossings.
  rewrite half_frames_val in *.
  rewrite (to_int_small (period_frames dev + 192)) by lia.
  rewrite (to_ulong_small (period_frames dev + 192)) by lia.
  destruct (Z.leb_spec (period_size (runtime s)) (period_frames dev + 192)).
  - assert (Hq : (period_frames dev + 192) / period_size (runtime s) = 1).
    { symmetry.
      apply Z.div_unique with (period_frames dev + 192 - period_size (runtime s));
        lia. }
    rewrite Hq. rewrite to_int_small by lia. cbn [period_elapsed_count
      is_period_elapsed]. lia.
  - rewrite Z.div_small by lia. cbn [period_elapsed_count]. lia.
Qed.

(** A silent device with an encoder installed makes every completion a
    silence-fill cycle. *)
Lemma silent_device_fill_cycle dev residue f :
  encode_frame dev = Some f →
  silence dev ≠ 0 →
  length (spdif_buffer dev) = Z.to_nat SPDIF_BUFSIZE →
  silence_fill_cycle dev residue.
Proof.
  intros Hf Hs Hlen. unfold silence_fill_cycle. cbv zeta.
  destruct (dma_complete_quiet dev residue Hs) as (Ht & Hp & Hpf).
  destruct (refill_offset_range residue) as [_ Hrange].
  split.
  { exists f. split; [exact Hf|].
    rewrite (dma_complete_silence dev residue f Hf Hs Hlen).
    cbn [fst set_spdif_buffer spdif_buffer].
    assert (Hfl : length (encode_seq f (spdif dev)
                            (replicate HALF_FRAMES zero)).2 = HALF_BYTES).
    { rewrite encode_seq_length, length_replicate. symmetry.
      apply HALF_BYTES_eq. }
    rewrite <-Hfl. apply window_content. lia. }
  rewrite Ht, Hp, Hpf. split; [reflexivity|]. split; [reflexivity|].
  split; [reflexivity|].
  intros x. rewrite <-Ht. by apply dma_complete_ignores_stream.
Qed.

(** The callback never reads [i2s_dma_cookie] (the residue it is given
    stands for what [dmaengine_tx_status] answers). *)
Lemma dma_complete_ignores_cookie dev residue c :
  bcm2708_i2s_dma_complete (set_i2s_dma_cookie c dev) residue
  = (set_i2s_dma_cookie c (bcm2708_i2s_dma_complete dev residue).1,
     (bcm2708_i2s_dma_complete dev residue).2).
Proof.
  unfold bcm2708_i2s_dma_complete.
  cbn [set_i2s_dma_cookie encode_frame silence].
  destruct (encode_frame dev) as [f|]; [|reflexivity].
  destruct (atomic_inc_not_zero (silence dev)) as [[|] v]; cbn [fst snd].
  - cbn [set_silence set_i2s_dma_cookie spdif spdif_buffer].
    match goal with
    | |- context [encode_frames ?a ?b ?c ?d ?e ?g ?h ?i] =>
        generalize (encode_frames a b c d e g h i)
    end.
    intros [e' b']. reflexivity.
  - cbn [set_silence set_i2s_dma_cookie ss spdif spdif_buffer pcm_pointer].
    destruct (ss dev) as [s|]; [|reflexivity].
    match goal with
    | |- context [encode_frames ?a ?b ?c ?d ?e ?g ?h ?i] =>
        generalize (encode_frames a b c d e g h i)
    end.
    intros [e' b'].
    cbn [fst snd set_spdif set_spdif_buffer set_pcm_pointer set_silence
         period_frames pcm_pointer].
    destruct (period_size (runtime s) <=? _); reflexivity.
Qed.

End Proofs.

(** ** More about the driver: registers, constraints, runs *)

Section MoreProofs.
Context `{ABI : KernelABI} `{ENC : SpdifEncoder}.

(** The encoder a loop leaves behind does not depend on the buffer. *)
Lemma encode_frames_encoder f n : ∀ e buf dst mem src stride,
  (encode_frames f n e buf dst mem src stride).1
  = (encode_seq f e (loop_sources mem src stride n)).1.
Proof.
  induction n as [|n IH]; intros; cbn [encode_frames loop_sources encode_seq
    fst]; [done|].
  apply IH.
Qed.

(** Encoding two runs of sources one after the other. *)
Lemma encode_seq_app f srcs1 : ∀ e srcs2,
  encode_seq f e (srcs1 ++ srcs2)
  = ((encode_seq f (encode_seq f e srcs1).1 srcs2).1,
     (encode_seq f e srcs1).2 ++ (encode_seq f (encode_seq f e srcs1).1 srcs2).2).
Proof.
  induction srcs1 as [|s rest IH]; intros e srcs2.
  - cbn [app encode_seq fst snd]. by destruct (encode_seq f e srcs2).
  - cbn [app encode_seq fst snd]. rewrite IH. cbn [fst snd].
    by rewrite app_assoc.
Qed.

(** The completion callback on a playing device, without the buffer. *)
Lemma dma_complete_playing dev residue f s :
  encode_frame dev = Some f →
  silence dev = 0 →
  ss dev = Some s →
  let r := bcm2708_i2s_dma_complete dev residue in
  pcm_pointer r.1
    = (if buffer_size (runtime s) <=? advanced_pcm_pointer dev
       then to_ulong (advanced_pcm_pointer dev - buffer_size (runtime s))
       else advanced_pcm_pointer dev)
  ∧ period_frames r.1
    = (if period_size (runtime s) <=? to_ulong (advanced_period_frames dev)
       then to_int (to_ulong (advanced_period_frames dev)
                    - period_size (runtime s))
       else advanced_period_frames dev)
  ∧ r.2
    = (if period_size (runtime s) <=? to_ulong (advanced_period_frames dev)
       then [snd_pcm_period_elapsed] else [])
  ∧ silence r.1 = 0 ∧ ss r.1 = Some s ∧ encode_frame r.1 = Some f
  ∧ i2s_dma_cookie r.1 = i2s_dma_cookie dev.
Proof.
  intros Hf Hs Hss.
  unfold bcm2708_i2s_dma_complete, atomic_inc_not_zero.
  rewrite Hf, Hs. cbn [fst snd Z.eqb].
  cbn [set_silence ss spdif spdif_buffer pcm_pointer]. rewrite Hss.
  match goal with
  | |- context [encode_frames ?a ?b ?c ?d ?e ?g ?h ?i] =>
      generalize (encode_frames a b c d e g h i)
  end.
  intros [e' b'].
  unfold advanced_period_frames, advanced_pcm_pointer.
  cbn [fst snd set_spdif set_spdif_buffer set_pcm_pointer pcm_pointer
       period_frames].
  destruct (period_size (runtime s) <=? _);
    cbn [fst snd set_period_frames spdif_buffer spdif pcm_pointer
         period_frames silence ss encode_frame i2s_dma_cookie];
    repeat split; try reflexivity; assumption.
Qed.

(** The completion callback on a silent device, without the buffer. *)
Lemma dma_complete_silent dev residue f :
  encode_frame dev = Some f →
  silence dev ≠ 0 →
  let r := bcm2708_i2s_dma_complete dev residue in
  r.2 = []
  ∧ silence r.1 = to_int (silence dev + 1)
  ∧ pcm_pointer r.1 = pcm_pointer dev
  ∧ period_frames r.1 = period_frames dev
  ∧ ss r.1 = ss dev ∧ encode_frame r.1 = Some f
  ∧ i2s_dma_cookie r.1 = i2s_dma_cookie dev
  ∧ spdif r.1 = (encode_seq f (spdif dev) (replicate HALF_FRAMES zero)).1.
Proof.
  intros Hf Hs.
  unfold bcm2708_i2s_dma_complete, atomic_inc_not_zero.
  rewrite Hf. apply Z.eqb_neq in Hs. rewrite Hs. cbn [fst snd].
  cbn [set_silence spdif spdif_buffer].
  fold HALF_FRAMES.
  rewrite <-(loop_sources_zero HALF_FRAMES).
  rewrite <-(encode_frames_encoder f HALF_FRAMES (spdif dev) (spdif_buffer dev)
               (refill_offset residue) zero 0 0).
  generalize (encode_frames f HALF_FRAMES (spdif dev) (spdif_buffer dev)
                (refill_offset residue) zero 0 0).
  intros [e' b'].
  cbn [fst snd set_spdif set_spdif_buffer set_silence spdif_buffer spdif
       pcm_pointer period_frames silence ss encode_frame i2s_dma_cookie].
  repeat split; try reflexivity; assumption.
Qed.

(** One PCM refill in numbers. *)
Lemma dma_complete_playing_step dev residue f s :
  encode_frame dev = Some f →
  silence dev = 0 →
  ss dev = Some s →
  0 ≤ pcm_pointer dev < buffer_size (runtime s) →
  SPDIF_BUFSIZE_FRAMES / 2 ≤ buffer_size (runtime s) < 2 ^ 30 →
  0 ≤ period_frames dev < period_size (runtime s) →
  SPDIF_BUFSIZE_FRAMES / 2 ≤ period_size (runtime s) < 2 ^ 30 →
  let r := bcm2708_i2s_dma_complete dev residue in
  pcm_pointer r.1 = (pcm_pointer dev + 192) mod buffer_size (runtime s)
  ∧ period_frames r.1 = (period_frames dev + 192) mod period_size (runtime s)
  ∧ period_elapsed_count r.2
    = Z.to_nat ((period_frames dev + 192) / period_size (runtime s))
  ∧ silence r.1 = 0 ∧ ss r.1 = Some s ∧ encode_frame r.1 = Some f
  ∧ i2s_dma_cookie r.1 = i2s_dma_cookie dev.
Proof.
  intros Hf Hs Hss Hp Hbs Hpf Hps.
  destruct (dma_complete_playing dev residue f s Hf Hs Hss)
    as (Hptr & Hpfr & Hev & H0 & H1 & H2 & H3).
  cbv zeta. rewrite Hptr, Hpfr, Hev. clear Hptr Hpfr Hev.
  unfold advanced_pcm_pointer, advanced_period_frames.
  rewrite half_frames_val in *.
  rewrite (to_ulong_small (pcm_pointer dev + 192)) by lia.
  rewrite (to_int_small (period_frames dev + 192)) by lia.
  rewrite (to_ulong_small (period_frames dev + 192)) by lia.
  split; [|split; [|split]]; [| | |auto].
  - destruct (Z.leb_spec (buffer_size (runtime s)) (pcm_pointer dev + 192)).
    + rewrite to_ulong_small by lia. apply Z.mod_unique with 1; lia.
    + symmetry. apply Z.mod_small. lia.
  - destruct (Z.leb_spec (period_size (runtime s)) (period_frames dev + 192)).
    + rewrite to_int_small by lia. apply Z.mod_unique with 1; lia.
    + symmetry. apply Z.mod_small. lia.
  - destruct (Z.leb_spec (period_size (runtime s)) (period_frames dev + 192)).
    + rewrite <-(Z.div_unique (period_frames dev + 192)
                   (period_size (runtime s)) 1
                   (period_frames dev + 192 - period_size (runtime s)));
        [reflexivity | lia | lia].
    + rewrite Z.div_small by lia. reflexivity.
Qed.

Lemma run_ops_cons o os dev :
  run_ops (o :: os) dev
  = ((run_ops os (run_op o dev).1).1,
     (run_op o dev).2 ++ (run_ops os (run_op o dev).1).2).
Proof. reflexivity. Qed.

Lemma playing_run residues : ∀ dev f s,
  encode_frame dev = Some f →
  silence dev = 0 →
  ss dev = Some s →
  0 ≤ pcm_pointer dev < buffer_size (runtime s) →
  SPDIF_BUFSIZE_FRAMES / 2 ≤ buffer_size (runtime s) < 2 ^ 30 →
  0 ≤ period_frames dev < period_size (runtime s) →
  SPDIF_BUFSIZE_FRAMES / 2 ≤ period_size (runtime s) < 2 ^ 30 →
  let n := Z.of_nat (length residues) in
  let r := run_ops (completions residues) dev in
  pcm_pointer r.1 = (pcm_pointer dev + 192 * n) mod buffer_size (runtime s)
  ∧ period_frames r.1
    = (period_frames dev + 192 * n) mod period_size (runtime s)
  ∧ period_elapsed_count r.2
    = Z.to_nat ((period_frames dev + 192 * n) / period_size (runtime s))
  ∧ silence r.1 = 0 ∧ ss r.1 = Some s ∧ encode_frame r.1 = Some f.
Proof.
  induction residues as [|a rest IH]; intros dev f s Hf Hs Hss Hp Hbs Hpf Hps.
  - cbn [length completions map run_ops fst snd period_elapsed_count].
    rewrite !Z.mul_0_r, !Z.add_0_r, !Z.mod_small, Z.div_small by lia.
    repeat split; auto.
  - unfold completions. cbn [map length]. rewrite run_ops_cons.
    cbn [run_op fst snd]. fold (completions rest).
    destruct (dma_complete_playing_step dev a f s Hf Hs Hss Hp Hbs Hpf Hps)
      as (Hp1 & Hpf1 & Hc1 & Hs1 & Hss1 & Hf1 & _).
    rewrite half_frames_val in *.
    assert (Hpin : 0 ≤ pcm_pointer (bcm2708_i2s_dma_complete dev a).1
                   < buffer_size (runtime s)).
    { rewrite Hp1. apply Z.mod_pos_bound. lia. }
    assert (Hpfin : 0 ≤ period_frames (bcm2708_i2s_dma_complete dev a).1
                    < period_size (runtime s)).
    { rewrite Hpf1. apply Z.mod_pos_bound. lia. }
    assert (Hbs' : SPDIF_BUFSIZE_FRAMES / 2 ≤ buffer_size (runtime s) < 2 ^ 30)
      by (rewrite half_frames_val; lia).
    assert (Hps' : SPDIF_BUFSIZE_FRAMES / 2 ≤ period_size (runtime s) < 2 ^ 30)
      by (rewrite half_frames_val; lia).
    destruct (IH _ f s Hf1 Hs1 Hss1 Hpin Hbs' Hpfin Hps')
      as (Hp2 & Hpf2 & Hc2 & Hs2 & Hss2 & Hf2).
    cbv zeta in *. rewrite Hp2, Hpf2, period_elapsed_count_app, Hc1, Hc2.
    rewrite Hp1, Hpf1. clear Hp2 Hpf2 Hc1 Hc2 Hp1 Hpf1 IH.
    set (m := Z.of_nat (length rest)).
    replace (192 * Z.of_nat (S (length rest))) with (192 + 192 * m) by lia.
    set (pf := period_frames dev) in *. set (ps := period_size (runtime s)) in *.
    set (p := pcm_pointer dev) in *. set (bs := buffer_size (runtime s)) in *.
    assert (Hm : 0 ≤ m) by lia.
    split; [|split; [|split; [|auto]]].
    + rewrite Zplus_mod_idemp_l. f_equal. lia.
    + rewrite Zplus_mod_idemp_l. f_equal. lia.
    + rewrite <-Z2Nat.inj_add.
      * f_equal.
        assert (E : pf + (192 + 192 * m)
                    = (pf + 192) `div` ps * ps
                      + ((pf + 192) `mod` ps + 192 * m)).
        { pose proof (Z.div_mod (pf + 192) ps). lia. }
        rewrite E, Z.div_add_l by lia. reflexivity.
      * apply Z.div_pos; lia.
      * apply Z.div_pos; [|lia].
        pose proof (Z.mod_pos_bound (pf + 192) ps). lia.
Qed.

Lemma silent_run residues : ∀ dev f,
  encode_frame dev = Some f →
  0 < silence dev →
  silence dev + Z.of_nat (length residues) < 2 ^ 31 →
  let r := run_ops (completions residues) dev in
  r.2 = []
  ∧ silence r.1 = silence dev + Z.of_nat (length residues)
  ∧ pcm_pointer r.1 = pcm_pointer dev
  ∧ period_frames r.1 = period_frames dev
  ∧ i2s_dma_cookie r.1 = i2s_dma_cookie dev
  ∧ ss r.1 = ss dev
  ∧ encode_frame r.1 = Some f
  ∧ spdif r.1
    = (encode_seq f (spdif dev)
         (replicate (length residues * HALF_FRAMES) zero)).1.
Proof.
  induction residues as [|a rest IH]; intros dev f Hf Hs Hn.
  - cbn [length completions map run_ops fst snd Nat.mul replicate encode_seq].
    rewrite Z.add_0_r. repeat split; auto.
  - unfold completions. cbn [map length]. rewrite run_ops_cons.
    cbn [run_op fst snd]. fold (completions rest).
    cbn [length] in Hn.
    assert (Hnz : silence dev ≠ 0) by lia.
    destruct (dma_complete_silent dev a f Hf Hnz)
      as (Ht & Hs1 & Hp1 & Hpf1 & Hss1 & Hf1 & Hc1 & He1).
    rewrite to_int_small in Hs1 by lia.
    assert (Hn' : silence (bcm2708_i2s_dma_complete dev a).1
                  + Z.of_nat (length rest) < 2 ^ 31)
      by (rewrite Hs1; lia).
    assert (Hpos : 0 < silence (bcm2708_i2s_dma_complete dev a).1)
      by (rewrite Hs1; lia).
    destruct (IH _ f Hf1 Hpos Hn')
      as (Ht2 & Hs2 & Hp2 & Hpf2 & Hc2 & Hss2 & Hf2 & He2).
    cbv zeta in *.
    rewrite Ht, Ht2, Hs2, Hp2, Hpf2, Hc2, Hss2, He2, Hs1, Hp1, Hpf1, Hc1,
      Hss1, He1.
    cbn [Nat.mul]. rewrite replicate_add, encode_seq_app. cbn [fst].
    repeat split; try reflexivity; try assumption; lia.
Qed.

(** X5. A burst of [n] completions on a playing device, with the stream
    position inside a ring of at least one refill and the period counter
    below a period of at least one refill: the position has advanced by
    [192 n] modulo the buffer size, the period counter by [192 n] modulo
    the period size, and exactly [(period_frames + 192 n) / period_size]
    period-elapsed notifications were raised. *)
Theorem playing_completions residues dev f s :
  encode_frame dev = Some f →
  silence dev = 0 →
  ss dev = Some s →
  0 ≤ pcm_pointer dev < buffer_size (runtime s) →
  SPDIF_BUFSIZE_FRAMES / 2 ≤ buffer_size (runtime s) < 2 ^ 30 →
  0 ≤ period_frames dev < period_size (runtime s) →
  SPDIF_BUFSIZE_FRAMES / 2 ≤ period_size (runtime s) < 2 ^ 30 →
  let n := Z.of_nat (length residues) in
  let r := run_ops (completions residues) dev in
  pcm_pointer r.1 = (pcm_pointer dev + 192 * n) mod buffer_size (runtime s)
  ∧ period_frames r.1
    = (period_frames dev + 192 * n) mod period_size (runtime s)
  ∧ period_elapsed_count r.2
    = Z.to_nat ((period_frames dev + 192 * n) / period_size (runtime s))
  ∧ silence r.1 = 0 ∧ ss r.1 = Some s ∧ encode_frame r.1 = Some f.
Proof. apply playing_run. Qed.

(** X3. A burst of completions on a silent device (encoder installed,
    counter positive and not about to overflow): each one adds 1 to the
    silence counter and runs the encoder over one more half of zero
    frames; none raises period-elapsed or moves the stream position. *)
Theorem silent_completions residues dev f :
  encode_frame dev = Some f →
  0 < silence dev →
  silence dev + Z.of_nat (length residues) < 2 ^ 31 →
  let r := run_ops (completions residues) dev in
  r.2 = []
  ∧ silence r.1 = silence dev + Z.of_nat (length residues)
  ∧ pcm_pointer r.1 = pcm_pointer dev
  ∧ period_frames r.1 = period_frames dev
  ∧ i2s_dma_cookie r.1 = i2s_dma_cookie dev
  ∧ ss r.1 = ss dev
  ∧ encode_frame r.1 = Some f
  ∧ spdif r.1
    = (encode_seq f (spdif dev)
         (replicate (length residues * HALF_FRAMES) zero)).1.
Proof. apply silent_run. Qed.

End MoreProofs.

Section MoreProofs2.
Context `{ABI : KernelABI} `{ENC : SpdifEncoder}.

Lemma BUFSIZE_FRAMES_halves :
  Z.to_nat SPDIF_BUFSIZE_FRAMES = (HALF_FRAMES + HALF_FRAMES)%nat.
Proof. unfold HALF_FRAMES. rewrite half_frames_val. unfold SPDIF_BUFSIZE_FRAMES. lia. Qed.

Lemma SPDIF_BUFSIZE_frames :
  Z.to_nat SPDIF_BUFSIZE
  = (Z.to_nat SPDIF_BUFSIZE_FRAMES * Z.to_nat SPDIF_FRAMESIZE)%nat.
Proof.
  unfold SPDIF_BUFSIZE, SPDIF_BUFSIZE_FRAMES. pose proof SPDIF_FRAMESIZE_pos.
  lia.
Qed.

(** A loop over [zero] that covers the whole buffer. *)
Lemma zero_fill_spec f n e buf :
  length buf = (n * Z.to_nat SPDIF_FRAMESIZE)%nat →
  encode_frames f n e buf 0 zero 0 0 = encode_seq f e (replicate n zero).
Proof.
  intros Hlen.
  rewrite encode_frames_spec; [|lia|rewrite Hlen, Z2Nat.inj_0; lia].
  rewrite loop_sources_zero, Z2Nat.inj_0, take_0, Nat.add_0_l.
  rewrite drop_ge by lia.
  rewrite app_nil_l, app_nil_r.
  by destruct (encode_seq f e (replicate n zero)).
Qed.

(** The silence fill of [bcm2708_i2s_dmaengine_prepare_and_submit]. *)
Lemma silence_fill_spec f e buf :
  length buf = Z.to_nat SPDIF_BUFSIZE →
  encode_frames f (Z.to_nat SPDIF_BUFSIZE_FRAMES) e buf 0 zero 0 0
  = encode_seq f e (replicate (Z.to_nat SPDIF_BUFSIZE_FRAMES) zero).
Proof.
  intros Hlen. apply zero_fill_spec. by rewrite Hlen, SPDIF_BUFSIZE_frames.
Qed.

(** The function with no transfer pending and an encoder installed. *)
Lemma prepare_and_submit_fresh dev env f :
  i2s_dma_cookie dev ≤ 0 →
  encode_frame dev = Some f →
  length (spdif_buffer dev) = Z.to_nat SPDIF_BUFSIZE →
  bcm2708_i2s_dmaengine_prepare_and_submit dev env
  = (let fill := encode_seq f (spdif dev)
                   (replicate (Z.to_nat SPDIF_BUFSIZE_FRAMES) zero) in
     let d := set_spdif_buffer fill.2 (set_spdif fill.1 dev) in
     let prep := dmaengine_prep_dma_cyclic SPDIF_BUFSIZE (SPDIF_BUFSIZE / 2) in
     if dma_desc_available env
     then (0, set_i2s_dma_cookie (dma_submit_cookie env) d,
           [prep; dmaengine_submit; dma_async_issue_pending])
     else (- ENOMEM, d, [prep])).
Proof.
  intros Hc Hf Hlen. unfold bcm2708_i2s_dmaengine_prepare_and_submit.
  assert (Hlt : (0 <? i2s_dma_cookie dev) = false) by (apply Z.ltb_ge; lia).
  rewrite Hlt, Hf. rewrite silence_fill_spec by exact Hlen. reflexivity.
Qed.

(** X8. With no transfer pending and an encoder installed, the whole
    buffer is rewritten with [SPDIF_BUFSIZE_FRAMES] frames of silence, one
    after the other from the encoder's state, before the descriptor is
    asked for, whether or not one is obtained. *)
Theorem prepare_and_submit_fills_silence dev env f :
  i2s_dma_cookie dev ≤ 0 →
  encode_frame dev = Some f →
  length (spdif_buffer dev) = Z.to_nat SPDIF_BUFSIZE →
  let r := bcm2708_i2s_dmaengine_prepare_and_submit dev env in
  let fill := encode_seq f (spdif dev)
                (replicate (Z.to_nat SPDIF_BUFSIZE_FRAMES) zero) in
  spdif_buffer r.1.2 = fill.2
  ∧ spdif r.1.2 = fill.1
  ∧ length fill.2 = Z.to_nat SPDIF_BUFSIZE
  ∧ head r.2 = Some (dmaengine_prep_dma_cyclic SPDIF_BUFSIZE (SPDIF_BUFSIZE / 2)).
Proof.
  intros Hc Hf Hlen. cbv zeta.
  rewrite (prepare_and_submit_fresh dev env f Hc Hf Hlen). cbv zeta.
  rewrite encode_seq_length, length_replicate, <-SPDIF_BUFSIZE_frames.
  generalize (encode_seq f (spdif dev)
                (replicate (Z.to_nat SPDIF_BUFSIZE_FRAMES) zero)).
  intros [e' b']. by destruct (dma_desc_available env).
Qed.

(** X9. When no descriptor can be obtained the function returns -ENOMEM
    and nothing is left pending: the cookie is unchanged and nothing was
    submitted, so that a later call, with a descriptor, submits. *)
Theorem prepare_and_submit_enomem dev env env' :
  i2s_dma_cookie dev ≤ 0 →
  dma_desc_available env = false →
  dma_desc_available env' = true →
  let r := bcm2708_i2s_dmaengine_prepare_and_submit dev env in
  let r' := bcm2708_i2s_dmaengine_prepare_and_submit r.1.2 env' in
  r.1.1 = - ENOMEM
  ∧ i2s_dma_cookie r.1.2 = i2s_dma_cookie dev
  ∧ r.2 = [dmaengine_prep_dma_cyclic SPDIF_BUFSIZE (SPDIF_BUFSIZE / 2)]
  ∧ r'.1.1 = 0
  ∧ i2s_dma_cookie r'.1.2 = dma_submit_cookie env'
  ∧ r'.2 = [dmaengine_prep_dma_cyclic SPDIF_BUFSIZE (SPDIF_BUFSIZE / 2);
            dmaengine_submit; dma_async_issue_pending].
Proof.
  intros Hc Hno Hyes.
  assert (Hlt : (0 <? i2s_dma_cookie dev) = false) by (apply Z.ltb_ge; lia).
  assert (H1 : ∀ d, (0 <? i2s_dma_cookie d) = false →
            let r := bcm2708_i2s_dmaengine_prepare_and_submit d env in
            r.1.1 = - ENOMEM ∧ i2s_dma_cookie r.1.2 = i2s_dma_cookie d
            ∧ r.2 = [dmaengine_prep_dma_cyclic SPDIF_BUFSIZE (SPDIF_BUFSIZE / 2)]).
  { intros d Hd. unfold bcm2708_i2s_dmaengine_prepare_and_submit.
    rewrite Hd, Hno. destruct (encode_frame d) as [f|]; [|done].
    generalize (encode_frames f (Z.to_nat SPDIF_BUFSIZE_FRAMES) (spdif d)
                  (spdif_buffer d) 0 zero 0 0).
    by intros [e' b']. }
  assert (H2 : ∀ d, (0 <? i2s_dma_cookie d) = false →
            let r := bcm2708_i2s_dmaengine_prepare_and_submit d env' in
            r.1.1 = 0 ∧ i2s_dma_cookie r.1.2 = dma_submit_cookie env'
            ∧ r.2 = [dmaengine_prep_dma_cyclic SPDIF_BUFSIZE (SPDIF_BUFSIZE / 2);
                     dmaengine_submit; dma_async_issue_pending]).
  { intros d Hd. unfold bcm2708_i2s_dmaengine_prepare_and_submit.
    rewrite Hd, Hyes. destruct (encode_frame d) as [f|]; [|done].
    generalize (encode_frames f (Z.to_nat SPDIF_BUFSIZE_FRAMES) (spdif d)
                  (spdif_buffer d) 0 zero 0 0).
    by intros [e' b']. }
  destruct (H1 dev Hlt) as (Ha & Hb & Hd). cbv zeta.
  split; [exact Ha|]. split; [exact Hb|]. split; [exact Hd|].
  apply H2. by rewrite Hb.
Qed.

(** X7. Two silent refills, of half 0 and then of half 1, leave in the
    buffer the [SPDIF_BUFSIZE_FRAMES] frames of silence that follow one
    another from the encoder they started with: the same bytes as the
    silence fill before a submission. *)
Theorem two_refills_fill_whole_buffer dev r0 r1 f :
  encode_frame dev = Some f →
  0 < silence dev < 2 ^ 31 - 2 →
  length (spdif_buffer dev) = Z.to_nat SPDIF_BUFSIZE →
  r0 ≤ SPDIF_BUFSIZE / 2 < r1 →
  let d := (bcm2708_i2s_dma_complete
              (bcm2708_i2s_dma_complete dev r0).1 r1).1 in
  let fill := encode_seq f (spdif dev)
                (replicate (Z.to_nat SPDIF_BUFSIZE_FRAMES) zero) in
  spdif_buffer d = fill.2 ∧ spdif d = fill.1 ∧ silence d = silence dev + 2.
Proof.
  intros Hf Hs Hlen [Hr0 Hr1]. cbv zeta.
  rewrite BUFSIZE_FRAMES_halves, replicate_add, encode_seq_app.
  cbn [fst snd].
  assert (Ho0 : Z.to_nat (refill_offset r0) = 0%nat).
  { destruct (refill_offset_cases r0) as [[_ ->] | [? _]]; [done | lia]. }
  assert (Ho1 : Z.to_nat (refill_offset r1) = HALF_BYTES).
  { destruct (refill_offset_cases r1) as [[? _] | [_ ->]]; [lia | done]. }
  pose proof (encode_seq_length f (replicate HALF_FRAMES zero) (spdif dev))
    as HL1.
  rewrite length_replicate, <-HALF_BYTES_eq in HL1.
  rewrite (dma_complete_silence dev r0 f Hf); [|lia|exact Hlen].
  cbv zeta. rewrite Ho0.
  destruct (encode_seq f (spdif dev) (replicate HALF_FRAMES zero))
    as [e1 b1].
  cbn [fst snd] in *. rewrite take_0, app_nil_l, Nat.add_0_l.
  pose proof (encode_seq_length f (replicate HALF_FRAMES zero) e1) as HL2.
  rewrite length_replicate, <-HALF_BYTES_eq in HL2.
  assert (Hs1 : to_int (silence dev + 1) = silence dev + 1)
    by (apply to_int_small; lia).
  rewrite Hs1.
  rewrite (dma_complete_silence _ r1 f); [|exact Hf|cbn [set_spdif_buffer
    set_spdif set_silence silence]; lia|].
  2:{ cbn [set_spdif_buffer spdif_buffer].
      rewrite length_app, length_drop, HL1, Hlen, SPDIF_BUFSIZE_halves. lia. }
  cbv zeta.
  cbn [fst set_spdif_buffer set_spdif set_silence spdif_buffer spdif silence].
  rewrite Ho1.
  destruct (encode_seq f e1 (replicate HALF_FRAMES zero)) as [e2 b2].
  cbn [fst snd] in *.
  split; [|split; [reflexivity|]].
  - rewrite <-HL1 at 1. rewrite take_app_length.
    rewrite drop_ge.
    + rewrite app_nil_r. reflexivity.
    + rewrite length_app, length_drop, HL1, Hlen, SPDIF_BUFSIZE_halves. lia.
  - rewrite to_int_small by lia. lia.
Qed.

(** X4. The silence counter is a 32-bit counter: it is incremented past
    INT_MAX to INT_MIN, and a completion finds it at 0 afterwards exactly
    when it was 0 or -1 before. *)
Theorem silence_counter_wraps dev residue f :
  encode_frame dev = Some f →
  - 2 ^ 31 ≤ silence dev < 2 ^ 31 →
  let v := silence (bcm2708_i2s_dma_complete dev residue).1 in
  (v = 0 ↔ silence dev = 0 ∨ silence dev = -1)
  ∧ (silence dev = 2 ^ 31 - 1 → v = - 2 ^ 31)
  ∧ (silence dev ≠ 0 → silence dev ≠ 2 ^ 31 - 1 → v = silence dev + 1).
Proof.
  intros Hf Hr. cbv zeta. rewrite dma_complete_counter, Hf.
  unfold atomic_inc_not_zero.
  destruct (Z.eqb_spec (silence dev) 0) as [H0 | H0]; cbn [snd].
  - rewrite H0. split; [|split]; [tauto | lia | lia].
  - destruct (decide (silence dev = 2 ^ 31 - 1)) as [Hmax | Hmax].
    + rewrite Hmax. change (to_int (2 ^ 31 - 1 + 1)) with (- 2 ^ 31).
      split; [|split]; [lia | lia | lia].
    + rewrite to_int_small by lia.
      split; [|split]; [lia | lia | lia].
Qed.

(** A completion keeps the cookie and calls nothing but, at most once,
    period-elapsed. *)
Lemma dma_complete_frame_events dev residue :
  let r := bcm2708_i2s_dma_complete dev residue in
  i2s_dma_cookie r.1 = i2s_dma_cookie dev
  ∧ (r.2 = [] ∨ r.2 = [snd_pcm_period_elapsed]).
Proof.
  cbv zeta.
  destruct (encode_frame dev) as [f|] eqn:Hf.
  2:{ rewrite dma_complete_unprepared by done. auto. }
  destruct (decide (silence dev = 0)) as [Hs | Hs].
  - destruct (ss dev) as [s|] eqn:Hss.
    + destruct (dma_complete_playing dev residue f s Hf Hs Hss)
        as (_ & _ & Hev & _ & _ & _ & Hc).
      rewrite Hev, Hc. split; [done|]. destruct (_ <=? _); auto.
    + rewrite (dma_complete_closed dev residue f) by done. auto.
  - destruct (dma_complete_silent dev residue f Hf Hs)
      as (Ht & _ & _ & _ & _ & _ & Hc & _).
    rewrite Ht, Hc. auto.
Qed.

(** X6. What a completion never does. It leaves the cookie, the substream
    pointer and the installed encoder alone; the only call it can make is
    one period-elapsed notification, and it makes it only on a playing
    device (encoder installed, silence counter 0, substream open);
    otherwise the stream position does not move. *)
Theorem dma_complete_frame dev residue :
  let r := bcm2708_i2s_dma_complete dev residue in
  i2s_dma_cookie r.1 = i2s_dma_cookie dev
  ∧ ss r.1 = ss dev
  ∧ encode_frame r.1 = encode_frame dev
  ∧ (r.2 = [] ∨ r.2 = [snd_pcm_period_elapsed])
  ∧ (r.2 ≠ [] ∨ pcm_pointer r.1 ≠ pcm_pointer dev
     ∨ period_frames r.1 ≠ period_frames dev →
       is_Some (encode_frame dev) ∧ silence dev = 0 ∧ is_Some (ss dev)).
Proof.
  cbv zeta.
  destruct (encode_frame dev) as [f|] eqn:Hf.
  2:{ rewrite dma_complete_unprepared by done. cbn [fst snd].
      rewrite Hf. do 4 (split; [auto|]).
      intros [? | [? | ?]]; congruence. }
  destruct (decide (silence dev = 0)) as [Hs | Hs].
  - destruct (ss dev) as [s|] eqn:Hss.
    + destruct (dma_complete_playing dev residue f s Hf Hs Hss)
        as (_ & _ & Hev & _ & Hss' & Hf' & Hc).
      rewrite Hev, Hss', Hf', Hc.
      do 3 (split; [auto|]).
      split; [destruct (_ <=? _); auto|].
      intros _. eauto.
    + rewrite (dma_complete_closed dev residue f) by done. cbn [fst snd].
      rewrite Hf, Hss. do 4 (split; [auto|]).
      intros [? | [? | ?]]; congruence.
  - destruct (dma_complete_silent dev residue f Hf Hs)
      as (Ht & _ & Hp & Hpf & Hss & Hf' & Hc & _).
    rewrite Ht, Hp, Hpf, Hss, Hf', Hc.
    do 4 (split; [auto|]).
    intros [? | [? | ?]]; congruence.
Qed.

End MoreProofs2.

Section MoreProofs3.
Context `{ABI : KernelABI} `{ENC : SpdifEncoder}.

(** *** Prepare *)

Lemma case_rate_Some_iff r :
  is_Some (case_rate r)
  ↔ r ∈ [44100; 48000; 88200; 96000; 176400; 192000].
Proof.
  split.
  - intros Hs. destruct (decide (r ∈ [44100; 48000; 88200; 96000; 176400;
                                      192000])) as [|Hn]; [done|].
    rewrite (case_rate_unsupported r Hn) in Hs. by destruct Hs.
  - rewrite !elem_of_cons, elem_of_nil.
    intros [-> | [-> | [-> | [-> | [-> | [-> | []]]]]]]; cbn; eauto.
Qed.

Lemma case_format_Some_iff fmt :
  is_Some (case_format fmt)
  ↔ fmt ∈ [SNDRV_PCM_FORMAT_S16_LE; SNDRV_PCM_FORMAT_S20_LE;
           SNDRV_PCM_FORMAT_S24_LE; SNDRV_PCM_FORMAT_S20_3LE;
           SNDRV_PCM_FORMAT_S24_3LE; SNDRV_PCM_FORMAT_S32_LE].
Proof.
  rewrite !elem_of_cons, elem_of_nil. split.
  - intros [f Hf]. destruct fmt; try discriminate; tauto.
  - intros [-> | [-> | [-> | [-> | [-> | [-> | []]]]]]]; cbn; eauto.
Qed.

(** A prepare that passes both switches. *)
Lemma prepare_accepted s dev env cs3 f :
  case_rate (rate (runtime s)) = Some cs3 →
  case_format (format (runtime s)) = Some f →
  bcm2708_pcm_prepare s dev env
  = (let d :=
       set_silence (if silence dev =? 0 then 1 else silence dev)
         (set_spdif
            (spdif_encoder_set_channel_status (spdif dev)
               (prepared_channel_status (runtime s) cs3))
            (set_encode_frame (Some f) dev)) in
     let r := bcm2708_i2s_dmaengine_prepare_and_submit d env in
     (0, r.1.2,
      bcm_2708_i2s_init_clock env (128 * rate (runtime s))
        ++ (if silence dev =? 0
            then [dev_info (msg_prepare (sample_bits (runtime s))
                              (rate (runtime s)))]
            else [])
        ++ r.2)).
Proof.
  intros Hr Hf. unfold bcm2708_pcm_prepare. rewrite Hr, Hf. reflexivity.
Qed.

(** X1. A prepare returns 0 exactly when the rate is one of the six and
    the format one of the six, whatever the clock calls and the DMA engine
    answer (a failed clock call or a missing descriptor is not reported);
    otherwise it returns -EINVAL. *)
Theorem prepare_return s dev env :
  let ret := (bcm2708_pcm_prepare s dev env).1.1 in
  (ret = 0
   ↔ rate (runtime s) ∈ [44100; 48000; 88200; 96000; 176400; 192000]
     ∧ format (runtime s) ∈
         [SNDRV_PCM_FORMAT_S16_LE; SNDRV_PCM_FORMAT_S20_LE;
          SNDRV_PCM_FORMAT_S24_LE; SNDRV_PCM_FORMAT_S20_3LE;
          SNDRV_PCM_FORMAT_S24_3LE; SNDRV_PCM_FORMAT_S32_LE])
  ∧ (ret = 0 ∨ ret = - EINVAL).
Proof.
  cbv zeta. rewrite <-case_rate_Some_iff, <-case_format_Some_iff.
  destruct (case_rate (rate (runtime s))) as [cs3|] eqn:Hr.
  - destruct (case_format (format (runtime s))) as [f|] eqn:Hf.
    + rewrite (prepare_accepted s dev env cs3 f Hr Hf). cbn [fst snd].
      split; [|by left]. split; eauto.
    + unfold bcm2708_pcm_prepare. rewrite Hr, Hf. cbn [fst snd].
      split; [|by right]. split; [discriminate|].
      intros [_ [? ?]]. discriminate.
  - unfold bcm2708_pcm_prepare. rewrite Hr. cbn [fst snd].
    split; [|by right]. split; [discriminate|].
    intros [[? ?] _]. discriminate.
Qed.

(** X2. After a prepare that is accepted, the encoder of the format is
    installed and the silence counter is nonzero (1 if it was 0, else
    unchanged); the stream position, the period counter and the substream
    pointer are untouched; the first call made sets the bit clock to 128
    times the rate.  The completion that follows raises nothing and leaves
    the stream position.  So does every completion of a burst of [n] that
    follows before a start, as long as the counter, not negative before
    the prepare, stays below [2^31]: the burst raises nothing, leaves the
    stream position and the period counter, and has counted [n]. *)
Theorem prepare_leaves_silent s dev env cs3 f :
  case_rate (rate (runtime s)) = Some cs3 →
  case_format (format (runtime s)) = Some f →
  let r := bcm2708_pcm_prepare s dev env in
  encode_frame r.1.2 = Some f
  ∧ silence r.1.2 = (if silence dev =? 0 then 1 else silence dev)
  ∧ silence r.1.2 ≠ 0
  ∧ pcm_pointer r.1.2 = pcm_pointer dev
  ∧ period_frames r.1.2 = period_frames dev
  ∧ ss r.1.2 = ss dev
  ∧ head r.2 = Some (clk_set_rate (128 * rate (runtime s)))
  ∧ (∀ residue,
       (bcm2708_i2s_dma_complete r.1.2 residue).2 = []
       ∧ pcm_pointer (bcm2708_i2s_dma_complete r.1.2 residue).1
         = pcm_pointer dev)
  ∧ ∀ residues,
      0 ≤ silence dev →
      silence dev + 1 + Z.of_nat (length residues) < 2 ^ 31 →
      let b := run_ops (completions residues) r.1.2 in
      b.2 = []
      ∧ pcm_pointer b.1 = pcm_pointer dev
      ∧ period_frames b.1 = period_frames dev
      ∧ silence b.1 = silence r.1.2 + Z.of_nat (length residues)
      ∧ silence b.1 ≠ 0.
Proof.
  intros Hr Hf. cbv zeta.
  rewrite (prepare_accepted s dev env cs3 f Hr Hf). cbv zeta. cbn [fst snd].
  match goal with
  | |- context [bcm2708_i2s_dmaengine_prepare_and_submit ?d ?e] =>
      destruct (prepare_and_submit_keeps d e) as (Hp & Hpf & Hs & Hss & He);
      set (d' := (bcm2708_i2s_dmaengine_prepare_and_submit d e).1.2) in *
  end.
  cbn [set_silence set_spdif set_encode_frame pcm_pointer period_frames
       silence ss encode_frame] in *.
  assert (Hnz : silence d' ≠ 0).
  { rewrite Hs. destruct (Z.eqb_spec (silence dev) 0); lia. }
  do 6 (split; [assumption|]).
  split; [reflexivity|].
  split.
  { intros residue.
    destruct (dma_complete_quiet d' residue Hnz) as (Ht & Hq & _).
    rewrite Ht, Hq. auto. }
  intros residues Hge Hlt.
  assert (Hsv : 0 < silence d' ∧ silence d' ≤ silence dev + 1).
  { rewrite Hs. destruct (Z.eqb_spec (silence dev) 0); lia. }
  destruct (silent_run residues d' f He) as (Ht & Hsb & Hpb & Hpfb & _);
    [lia | lia |].
  cbv zeta in *. rewrite Ht, Hsb, Hpb, Hpfb.
  repeat split; try assumption; try reflexivity; lia.
Qed.

(** *** Stop, then start *)

(** X11. A start after a stop always starts over: with a descriptor
    available it submits a new cyclic transfer (exactly one submission),
    over a buffer rewritten with [SPDIF_BUFSIZE_FRAMES] frames of silence,
    with the stream position, the period counter and the silence counter
    at 0. *)
Theorem stop_start_resubmits s dev env1 env2 f :
  encode_frame dev = Some f →
  length (spdif_buffer dev) = Z.to_nat SPDIF_BUFSIZE →
  dma_desc_available env2 = true →
  let d1 := (bcm2708_pcm_trigger s dev SNDRV_PCM_TRIGGER_STOP env1).1.2 in
  let r := bcm2708_pcm_trigger s d1 SNDRV_PCM_TRIGGER_START env2 in
  r.1.1 = 0
  ∧ i2s_dma_cookie r.1.2 = dma_submit_cookie env2
  ∧ submit_count r.2 = 1%nat
  ∧ spdif_buffer r.1.2
    = (encode_seq f (spdif dev)
         (replicate (Z.to_nat SPDIF_BUFSIZE_FRAMES) zero)).2
  ∧ pcm_pointer r.1.2 = 0 ∧ period_frames r.1.2 = 0 ∧ silence r.1.2 = 0.
Proof.
  intros Hf Hlen Hd. cbv zeta.
  unfold bcm2708_pcm_trigger. cbn [fst snd atomic_xchg].
  match goal with
  | |- context [bcm2708_i2s_dmaengine_prepare_and_submit ?d ?e] =>
      rewrite (prepare_and_submit_fresh d e f)
  end; [| cbn; lia | exact Hf | exact Hlen].
  cbv zeta. rewrite Hd.
  cbn [set_silence set_period_frames set_pcm_pointer set_i2s_dma_cookie
       spdif silence].
  generalize (encode_seq f (spdif dev)
                (replicate (Z.to_nat SPDIF_BUFSIZE_FRAMES) zero)).
  intros [e' b']. cbn [fst snd].
  destruct (1 <? silence dev); cbn; auto 10.
Qed.

End MoreProofs3.

Section MoreProofs4.
Context `{ABI : KernelABI} `{ENC : SpdifEncoder}.

(** *** Submissions *)

Lemma submit_count_app t1 t2 :
  submit_count (t1 ++ t2) = (submit_count t1 + submit_count t2)%nat.
Proof.
  induction t1 as [|e t1 IH]; cbn [app submit_count]; [done|].
  rewrite IH. lia.
Qed.

Lemma init_clock_no_submit env r :
  submit_count (bcm_2708_i2s_init_clock env r) = 0%nat.
Proof.
  unfold bcm_2708_i2s_init_clock.
  by destruct (clk_set_rate_ret env =? 0),
              (clk_prepare_enable_ret env =? 0).
Qed.

(** Submissions and cookie of one call of
    [bcm2708_i2s_dmaengine_prepare_and_submit]. *)
Lemma prepare_and_submit_cookie dev env :
  0 < dma_submit_cookie env →
  let r := bcm2708_i2s_dmaengine_prepare_and_submit dev env in
  (0 < i2s_dma_cookie dev →
     submit_count r.2 = 0%nat ∧ 0 < i2s_dma_cookie r.1.2)
  ∧ (submit_count r.2 ≤ 1)%nat
  ∧ (submit_count r.2 = 1%nat → 0 < i2s_dma_cookie r.1.2).
Proof.
  intros Henv. unfold bcm2708_i2s_dmaengine_prepare_and_submit.
  destruct (Z.ltb_spec 0 (i2s_dma_cookie dev)) as [Hc | Hc].
  - cbn. repeat split; auto; lia.
  - set (d := match encode_frame dev with Some _ => _ | None => _ end).
    destruct (dma_desc_available env); cbn; repeat split; auto; lia.
Qed.

(** Submissions and cookie of one operation. *)
Lemma run_op_cookie o dev :
  submit_succeeds o →
  let r := run_op o dev in
  (0 < i2s_dma_cookie dev →
     submit_count r.2 = 0%nat
     ∧ (is_stop o = false → 0 < i2s_dma_cookie r.1))
  ∧ (submit_count r.2 ≤ 1)%nat
  ∧ (submit_count r.2 = 1%nat → 0 < i2s_dma_cookie r.1)
  ∧ (is_stop o = true → submit_count r.2 = 0%nat).
Proof.
  destruct o as [s | s | s env | s cmd env | residue];
    cbn [submit_succeeds run_op fst snd is_stop]; intros Hok.
  - cbn. repeat split; auto; lia.
  - cbn. repeat split; auto; lia.
  - unfold bcm2708_pcm_prepare.
    destruct (case_rate _); [|cbn; repeat split; auto; lia].
    destruct (case_format _); [|cbn; repeat split; auto; lia].
    cbn [fst snd].
    match goal with
    | |- context [bcm2708_i2s_dmaengine_prepare_and_submit ?d ?e] =>
        destruct (prepare_and_submit_cookie d e Hok) as (H1 & H2 & H3);
        set (r := bcm2708_i2s_dmaengine_prepare_and_submit d e) in *
    end.
    cbn [set_silence set_spdif set_encode_frame i2s_dma_cookie] in H1.
    rewrite !submit_count_app, init_clock_no_submit.
    assert (Hlog : ∀ (b : bool) m,
              submit_count (if b then [dev_info m] else []) = 0%nat)
      by (by intros []).
    rewrite Hlog. cbn [Nat.add].
    repeat split; auto; try (intros; apply H1; auto); discriminate.
  - destruct cmd; try (cbn; repeat split; auto; lia).
    unfold bcm2708_pcm_trigger. cbn [fst snd atomic_xchg].
    match goal with
    | |- context [bcm2708_i2s_dmaengine_prepare_and_submit ?d ?e] =>
        destruct (prepare_and_submit_cookie d e Hok) as (H1 & H2 & H3);
        set (r := bcm2708_i2s_dmaengine_prepare_and_submit d e) in *
    end.
    cbn [set_silence set_period_frames set_pcm_pointer i2s_dma_cookie] in H1.
    rewrite submit_count_app.
    assert (Hlog : submit_count
                     (if 1 <? silence (set_period_frames 0 (set_pcm_pointer 0 dev))
                      then [dev_info (msg_start_silenced
                              (Z.quot (to_int (to_int
                                 (silence (set_period_frames 0
                                    (set_pcm_pointer 0 dev)) + 1)
                                 * SPDIF_BUFSIZE_FRAMES)) 2))]
                      else [dev_info msg_start]) = 0%nat)
      by (by destruct (1 <? _)).
    rewrite Hlog. cbn [Nat.add].
    repeat split; auto; try (intros; apply H1; auto); discriminate.
  - destruct (dma_complete_frame_events dev residue) as (Hc & Hev).
    rewrite Hc. destruct Hev as [-> | ->]; cbn; repeat split; auto; lia.
Qed.

(** X10. Over any sequence of operations in which [dmaengine_submit]
    answers with valid cookies, the driver never has two transfers
    submitted at once: the number of submissions is at most the number of
    stop triggers, plus one if no transfer was pending at the beginning. *)
Theorem submissions_bounded_by_stops os : ∀ dev,
  Forall submit_succeeds os →
  (submit_count (run_ops os dev).2
   ≤ (if (0 <? i2s_dma_cookie dev)%Z then 0 else 1) + stop_count os)%nat.
Proof.
  induction os as [|o os IH]; intros dev Hall.
  - cbn. lia.
  - apply Forall_cons in Hall as [Ho Hos].
    rewrite run_ops_cons. cbn [snd stop_count]. rewrite submit_count_app.
    destruct (run_op_cookie o dev Ho) as (Hpend & Hle & Hone & Hstop).
    specialize (IH (run_op o dev).1 Hos).
    destruct (Z.ltb_spec 0 (i2s_dma_cookie dev)) as [Hc | Hc].
    + destruct (Hpend Hc) as [H0 Hkeep]. rewrite H0.
      destruct (is_stop o) eqn:Hst.
      * destruct (0 <? _) in IH; lia.
      * specialize (Hkeep eq_refl). apply Z.ltb_lt in Hkeep.
        rewrite Hkeep in IH. lia.
    + destruct (is_stop o) eqn:Hst.
      * rewrite (Hstop eq_refl). destruct (0 <? _) in IH; lia.
      * destruct (decide (submit_count (run_op o dev).2 = 1%nat)) as [H1 | H1].
        -- specialize (Hone H1). apply Z.ltb_lt in Hone.
           rewrite Hone in IH. lia.
        -- destruct (0 <? _) in IH; lia.
Qed.

End MoreProofs4.

Section MoreProofs5.
Context `{ABI : KernelABI} `{ENC : SpdifEncoder}.

(** *** The stream position *)

Lemma prepare_keeps_position s dev env :
  pcm_pointer (bcm2708_pcm_prepare s dev env).1.2 = pcm_pointer dev
  ∧ ss (bcm2708_pcm_prepare s dev env).1.2 = ss dev.
Proof.
  unfold bcm2708_pcm_prepare.
  destruct (case_rate _); [|done]. destruct (case_format _); [|done].
  cbn [fst snd].
  match goal with
  | |- context [bcm2708_i2s_dmaengine_prepare_and_submit ?d ?e] =>
      destruct (prepare_and_submit_keeps d e) as (-> & _ & _ & -> & _)
  end.
  done.
Qed.

Lemma trigger_keeps_position s dev cmd env :
  (pcm_pointer (bcm2708_pcm_trigger s dev cmd env).1.2 = pcm_pointer dev
   ∨ pcm_pointer (bcm2708_pcm_trigger s dev cmd env).1.2 = 0)
  ∧ ss (bcm2708_pcm_trigger s dev cmd env).1.2 = ss dev.
Proof.
  destruct cmd; try (cbn; auto).
  unfold bcm2708_pcm_trigger. cbn [fst snd].
  match goal with
  | |- context [bcm2708_i2s_dmaengine_prepare_and_submit ?d ?e] =>
      destruct (prepare_and_submit_keeps d e) as (-> & _ & _ & -> & _)
  end.
  cbn. auto.
Qed.

Lemma run_op_position o dev :
  position_on_refill_boundary dev →
  opens_ring_of_refills o →
  position_on_refill_boundary (run_op o dev).1.
Proof.
  intros (Hdiv & Hr & Hss) Ho.
  destruct o as [s | s | s env | s cmd env | residue];
    cbn [run_op fst snd opens_ring_of_refills] in *.
  - split; [done|]. split; [done|]. cbn. intros s' [= <-]. done.
  - split; [done|]. split; [done|]. cbn. discriminate.
  - destruct (prepare_keeps_position s dev env) as [Hp Hs].
    unfold position_on_refill_boundary. rewrite Hp, Hs. done.
  - destruct (trigger_keeps_position s dev cmd env) as [[Hp | Hp] Hs];
      unfold position_on_refill_boundary; rewrite Hp, Hs; [done|].
    split; [apply Z.divide_0_r|]. split; [lia | done].
  - destruct (encode_frame dev) as [f|] eqn:Hf.
    2:{ rewrite dma_complete_unprepared by done. cbn [fst]. done. }
    destruct (decide (silence dev = 0)) as [Hs | Hs].
    + destruct (ss dev) as [s|] eqn:Hs'.
      2:{ rewrite (dma_complete_closed dev residue f) by done. cbn [fst].
          split; [done|]. split; [done|]. rewrite Hs'. discriminate. }
      destruct (dma_complete_playing dev residue f s Hf Hs Hs')
        as (Hp & _ & _ & _ & Hss' & _).
      destruct (Hss s eq_refl) as [[b Hb] Hbs].
      destruct Hdiv as [a Ha].
      unfold position_on_refill_boundary. rewrite Hp, Hss'.
      unfold advanced_pcm_pointer. rewrite half_frames_val in *.
      rewrite (to_ulong_small (pcm_pointer dev + 192)) by lia.
      split; [|split].
      * destruct (Z.leb_spec (buffer_size (runtime s)) (pcm_pointer dev + 192)).
        -- rewrite to_ulong_small by lia. exists (a + 1 - b). lia.
        -- exists (a + 1). lia.
      * destruct (Z.leb_spec (buffer_size (runtime s)) (pcm_pointer dev + 192)).
        -- rewrite to_ulong_small by lia. lia.
        -- lia.
      * intros s' [= <-]. split; [by exists b | done].
    + destruct (dma_complete_silent dev residue f Hf Hs)
        as (_ & _ & Hp & _ & Hss' & _).
      unfold position_on_refill_boundary. rewrite Hp, Hss'. done.
Qed.

(** X15. Whatever the kernel invokes and in whatever order, as long as
    the streams it opens have a ring of whole refills (below 2^30 frames),
    the position [bcm2708_pcm_pointer] reports stays on a refill boundary:
    a multiple of [SPDIF_BUFSIZE_FRAMES/2] frames, never wrapped around
    the [unsigned long]. *)
Theorem pointer_on_refill_boundary os : ∀ dev,
  position_on_refill_boundary dev →
  Forall opens_ring_of_refills os →
  position_on_refill_boundary (run_ops os dev).1
  ∧ (SPDIF_BUFSIZE_FRAMES / 2 | bcm2708_pcm_pointer (run_ops os dev).1).
Proof.
  induction os as [|o os IH]; intros dev Hdev Hall.
  - cbn [run_ops fst]. split; [done|]. by destruct Hdev.
  - apply Forall_cons in Hall as [Ho Hos]. rewrite run_ops_cons. cbn [fst].
    apply IH; [|done]. by apply run_op_position.
Qed.

(** *** The count logged at the start *)

Lemma run_ops_app os1 : ∀ os2 dev,
  run_ops (os1 ++ os2) dev
  = ((run_ops os2 (run_ops os1 dev).1).1,
     (run_ops os1 dev).2 ++ (run_ops os2 (run_ops os1 dev).1).2).
Proof.
  induction os1 as [|o os1 IH]; intros os2 dev.
  - cbn [app run_ops fst snd]. by destruct (run_ops os2 dev).
  - cbn [app]. rewrite !run_ops_cons, IH. cbn [fst snd].
    by rewrite app_assoc.
Qed.

(** A first submission, without the buffer. *)
Lemma prepare_and_submit_started dev env f :
  i2s_dma_cookie dev ≤ 0 →
  encode_frame dev = Some f →
  dma_desc_available env = true →
  let r := bcm2708_i2s_dmaengine_prepare_and_submit dev env in
  i2s_dma_cookie r.1.2 = dma_submit_cookie env
  ∧ spdif r.1.2
    = (encode_seq f (spdif dev)
         (replicate (Z.to_nat SPDIF_BUFSIZE_FRAMES) zero)).1.
Proof.
  intros Hc Hf Hd. unfold bcm2708_i2s_dmaengine_prepare_and_submit.
  assert (Hlt : (0 <? i2s_dma_cookie dev) = false) by (apply Z.ltb_ge; lia).
  rewrite Hlt, Hf, Hd.
  rewrite <-(loop_sources_zero (Z.to_nat SPDIF_BUFSIZE_FRAMES)).
  rewrite <-(encode_frames_encoder f (Z.to_nat SPDIF_BUFSIZE_FRAMES)
               (spdif dev) (spdif_buffer dev) 0 zero 0 0).
  generalize (encode_frames f (Z.to_nat SPDIF_BUFSIZE_FRAMES) (spdif dev)
                (spdif_buffer dev) 0 zero 0 0).
  by intros [e' b'].
Qed.

(** X17. From an idle device (counter 0, nothing pending), a prepare
    that is accepted and submits, [n] completions (at least one, at most
    5592403) and a start: the start logs
    [SPDIF_BUFSIZE_FRAMES + 192 n] frames silenced, which is the number of
    frames of silence the encoder has produced since the prepare installed
    the channel status; no period-elapsed was raised. *)
Theorem start_reports_silence_encoded s dev env env' residues cs3 f :
  case_rate (rate (runtime s)) = Some cs3 →
  case_format (format (runtime s)) = Some f →
  silence dev = 0 →
  i2s_dma_cookie dev ≤ 0 →
  dma_desc_available env = true →
  0 < dma_submit_cookie env →
  0 < Z.of_nat (length residues) ≤ 5592403 →
  let n := Z.of_nat (length residues) in
  let r := run_ops (op_prepare s env
                      :: completions residues
                      ++ [op_trigger s SNDRV_PCM_TRIGGER_START env']) dev in
  last r.2
    = Some (dev_info (msg_start_silenced (SPDIF_BUFSIZE_FRAMES + 192 * n)))
  ∧ spdif r.1
    = (encode_seq f
         (spdif_encoder_set_channel_status (spdif dev)
            (prepared_channel_status (runtime s) cs3))
         (replicate (Z.to_nat SPDIF_BUFSIZE_FRAMES
                     + length residues * HALF_FRAMES) zero)).1
  ∧ period_elapsed_count r.2 = 0%nat
  ∧ silence r.1 = 0 ∧ pcm_pointer r.1 = 0.
Proof.
  intros Hr Hf Hs Hc Hd Hck Hn. cbv zeta.
  rewrite run_ops_cons, run_ops_app. cbn [fst snd run_op].
  (* the prepare *)
  pose proof (control_path_no_period_elapsed (op_prepare s env) dev eq_refl)
    as HpeP. cbn [run_op snd] in HpeP.
  revert HpeP.
  rewrite (prepare_accepted s dev env cs3 f Hr Hf). cbv zeta.
  rewrite Hs. cbn [Z.eqb fst snd].
  set (d := set_silence 1 _).
  destruct (prepare_and_submit_started d env f) as (HcP & HeP);
    [exact Hc | reflexivity | exact Hd |].
  destruct (prepare_and_submit_keeps d env) as (HpP & HpfP & HsP & HssP & HfP).
  set (tP := _ ++ _ ++ (bcm2708_i2s_dmaengine_prepare_and_submit d env).2).
  set (dP := (bcm2708_i2s_dmaengine_prepare_and_submit d env).1.2) in *.
  intros HpeP.
  cbn [d set_silence set_spdif set_encode_frame silence spdif encode_frame]
    in HsP, HeP, HfP.
  (* the completions *)
  destruct (silent_run residues dP f) as
    (Ht & Hs2 & Hp2 & Hpf2 & Hc2 & Hss2 & Hf2 & He2);
    [exact HfP | lia | lia |].
  set (dS := (run_ops (completions residues) dP).1) in *.
  rewrite Ht. cbn [app].
  (* the start *)
  assert (Hstart : run_ops [op_trigger s SNDRV_PCM_TRIGGER_START env'] dS
            = (set_silence 0 (set_period_frames 0 (set_pcm_pointer 0 dS)),
               [dev_info (msg_start_silenced
                            (SPDIF_BUFSIZE_FRAMES
                             + 192 * Z.of_nat (length residues)))])).
  { cbn [run_ops run_op fst snd]. unfold bcm2708_pcm_trigger.
    cbn [fst snd atomic_xchg].
    unfold bcm2708_i2s_dmaengine_prepare_and_submit.
    cbn [set_silence set_period_frames set_pcm_pointer i2s_dma_cookie silence].
    assert (Hpend : (0 <? i2s_dma_cookie dS) = true)
      by (apply Z.ltb_lt; lia).
    rewrite Hpend. cbn [fst snd app].
    assert (Hgt : (1 <? silence dS) = true) by (apply Z.ltb_lt; lia).
    rewrite Hgt, Hs2, HsP.
    unfold SPDIF_BUFSIZE_FRAMES. change (2 * 192) with 384.
    rewrite (to_int_small (1 + Z.of_nat (length residues) + 1)) by lia.
    rewrite to_int_small by lia.
    replace ((1 + Z.of_nat (length residues) + 1) * 384)
      with ((384 + 192 * Z.of_nat (length residues)) * 2) by lia.
    rewrite Z.quot_mul by lia. reflexivity. }
  rewrite Hstart. cbn [fst snd].
  split; [apply last_snoc|].
  split.
  { cbn [set_silence set_period_frames set_pcm_pointer spdif].
    rewrite He2, HeP, replicate_add, encode_seq_app. reflexivity. }
  split.
  { rewrite period_elapsed_count_app, HpeP. reflexivity. }
  split; reflexivity.
Qed.

(** *** Hardware constraints *)

Lemma hw_geometry rt :
  hw_constrained rt = true →
  ((frame_bits rt = 32 ∧ period_size rt = 6 * (SPDIF_BUFSIZE_FRAMES / 2))
   ∨ (frame_bits rt = 48 ∧ period_size rt = 4 * (SPDIF_BUFSIZE_FRAMES / 2))
   ∨ (frame_bits rt = 64 ∧ period_size rt = 3 * (SPDIF_BUFSIZE_FRAMES / 2)))
  ∧ buffer_size rt = PCM_PERIODES * period_size rt
  ∧ (SPDIF_BUFSIZE_FRAMES / 2 | period_size rt)
  ∧ (SPDIF_BUFSIZE_FRAMES / 2 | buffer_size rt)
  ∧ SPDIF_BUFSIZE_FRAMES / 2 ≤ period_size rt < 2 ^ 30
  ∧ SPDIF_BUFSIZE_FRAMES / 2 ≤ buffer_size rt < 2 ^ 30
  ∧ frame_bits rt mod 8 = 0
  ∧ frames_to_bytes rt (buffer_size rt) = PCM_BUFSIZE.
Proof.
  unfold hw_constrained. rewrite !andb_true_iff, !orb_true_iff.
  rewrite !Z.eqb_eq. unfold frames_to_bytes.
  change (PCM_BUFSIZE / PCM_PERIODES) with 4608.
  change PCM_BUFSIZE with 36864. change PCM_PERIODES with 8.
  rewrite half_frames_val.
  intros [[Hfb Hper] Hbuf].
  assert (Hcases :
    (frame_bits rt = 32 ∧ period_size rt = 1152)
    ∨ (frame_bits rt = 48 ∧ period_size rt = 768)
    ∨ (frame_bits rt = 64 ∧ period_size rt = 576)).
  { destruct Hfb as [[Hfb | Hfb] | Hfb]; rewrite Hfb in Hper.
    - left. split; [done|].
      replace (period_size rt * 32) with (period_size rt * 4 * 8) in Hper by lia.
      rewrite Z.div_mul in Hper by lia. lia.
    - right. left. split; [done|].
      replace (period_size rt * 48) with (period_size rt * 6 * 8) in Hper by lia.
      rewrite Z.div_mul in Hper by lia. lia.
    - right. right. split; [done|].
      replace (period_size rt * 64) with (period_size rt * 8 * 8) in Hper by lia.
      rewrite Z.div_mul in Hper by lia. lia. }
  rewrite Hbuf.
  destruct Hcases as [[Hb Hp] | [[Hb Hp] | [Hb Hp]]]; rewrite Hb, Hp.
  - split; [left; split; [done | lia]|]. split; [done|].
    split; [by exists 6|]. split; [by exists 48|].
    repeat split; try lia; reflexivity.
  - split; [right; left; split; [done | lia]|]. split; [done|].
    split; [by exists 4|]. split; [by exists 32|].
    repeat split; try lia; reflexivity.
  - split; [right; right; split; [done | lia]|]. split; [done|].
    split; [by exists 3|]. split; [by exists 24|].
    repeat split; try lia; reflexivity.
Qed.

(** X14. Under the constraints the driver declares (frames of 4, 6 or 8
    bytes, periods of [PCM_BUFSIZE/PCM_PERIODES] bytes, [PCM_PERIODES]
    periods) a period is 1152, 768 or 576 frames: 6, 4 or 3 refills
    exactly.  The buffer is 8 periods, both sizes are multiples of one
    refill and far below 2^30, and a frame is a whole number of bytes. *)
Theorem hw_constrained_geometry rt :
  hw_constrained rt = true →
  ((frame_bits rt = 32 ∧ period_size rt = 6 * (SPDIF_BUFSIZE_FRAMES / 2))
   ∨ (frame_bits rt = 48 ∧ period_size rt = 4 * (SPDIF_BUFSIZE_FRAMES / 2))
   ∨ (frame_bits rt = 64 ∧ period_size rt = 3 * (SPDIF_BUFSIZE_FRAMES / 2)))
  ∧ buffer_size rt = PCM_PERIODES * period_size rt
  ∧ (SPDIF_BUFSIZE_FRAMES / 2 | period_size rt)
  ∧ (SPDIF_BUFSIZE_FRAMES / 2 | buffer_size rt)
  ∧ SPDIF_BUFSIZE_FRAMES / 2 ≤ period_size rt < 2 ^ 30
  ∧ SPDIF_BUFSIZE_FRAMES / 2 ≤ buffer_size rt < 2 ^ 30
  ∧ frame_bits rt mod 8 = 0
  ∧ frames_to_bytes rt (buffer_size rt) = PCM_BUFSIZE.
Proof. apply hw_geometry. Qed.

(** X16. Under those constraints, on a device that has just been
    started (position and period counter 0), period-elapsed is raised on
    every [k]-th refill, [k] being 6, 4 or 3 by the frame size: after [n]
    completions [n / k] notifications were raised, the period counter is
    [192 (n mod k)] and the position [192 (n mod 8k)]. *)
Theorem period_elapsed_every_period residues dev f s :
  hw_constrained (runtime s) = true →
  encode_frame dev = Some f →
  silence dev = 0 →
  ss dev = Some s →
  pcm_pointer dev = 0 →
  period_frames dev = 0 →
  let n := Z.of_nat (length residues) in
  let k := period_size (runtime s) / (SPDIF_BUFSIZE_FRAMES / 2) in
  let r := run_ops (completions residues) dev in
  (k = 6 ∨ k = 4 ∨ k = 3)
  ∧ period_elapsed_count r.2 = Z.to_nat (n / k)
  ∧ period_frames r.1 = 192 * (n mod k)
  ∧ pcm_pointer r.1 = 192 * (n mod (PCM_PERIODES * k)).
Proof.
  intros Hhw Hf Hs Hss Hp Hpf. cbv zeta.
  destruct (hw_geometry (runtime s) Hhw)
    as (Hcases & Hbuf & _ & _ & Hps & Hbs & _ & _).
  pose proof half_frames_val as Hh.
  destruct (playing_run residues dev f s Hf Hs Hss) as (Hp' & Hpf' & Hc & _);
    [lia | exact Hbs | lia | exact Hps |].
  clear Hh.
  cbv zeta in *. rewrite Hp', Hpf', Hc, Hp, Hpf, !Z.add_0_l, Hbuf.
  rewrite half_frames_val in *. change PCM_PERIODES with 8.
  set (n := Z.of_nat (length residues)).
  assert (Hk : ∃ k, (k = 6 ∨ k = 4 ∨ k = 3) ∧ period_size (runtime s) = 192 * k).
  { destruct Hcases as [[_ ->] | [[_ ->] | [_ ->]]];
      [exists 6 | exists 4 | exists 3]; split; auto; lia. }
  destruct Hk as (k & Hk & ->).
  replace (192 * k / 192) with k by (rewrite Z.mul_comm, Z.div_mul; lia).
  split; [exact Hk|].
  rewrite Z.div_mul_cancel_l by lia.
  rewrite Z.mul_mod_distr_l by lia.
  replace (8 * (192 * k)) with (192 * (8 * k)) by lia.
  rewrite Z.mul_mod_distr_l by lia. auto.
Qed.

End MoreProofs5.

(** ** Period accounting and the stop of a playing stream *)

Section StreamProofs.
Context `{ABI : KernelABI} `{ENC : SpdifEncoder}.


(** C4, as the code has it. On a playing stream the stop trigger returns
    0, terminates the transfer and clears [i2s_dma_cookie], and changes
    nothing else: the silence counter stays 0 and the substream stays
    attached.  No operation of the control path raises period-elapsed, so
    that only a completion that still arrives could.  Such a completion
    does what it did before the stop: it fills the selected half with
    frames encoded from the stream's ring at [pcm_pointer] and raises
    period-elapsed when the period counter reaches the period size.  It is
    a silence-fill cycle that does not look at the stream once the next
    prepare has set the silence counter, and it does nothing once close
    has detached the substream. *)
Theorem C4_stop_then_completion s dev env env' residue f cs3 f' :
  encode_frame dev = Some f →
  silence dev = 0 →
  ss dev = Some s →
  length (spdif_buffer dev) = Z.to_nat SPDIF_BUFSIZE →
  frame_bits (runtime s) mod 8 = 0 →
  case_rate (rate (runtime s)) = Some cs3 →
  case_format (format (runtime s)) = Some f' →
  let r := bcm2708_pcm_trigger s dev SNDRV_PCM_TRIGGER_STOP env in
  let late := bcm2708_i2s_dma_complete r.1.2 residue in
  let prepared := (bcm2708_pcm_prepare s r.1.2 env').1.2 in
  let closed := (bcm2708_pcm_close s r.1.2).1.2 in
  r = (0, set_i2s_dma_cookie 0 dev, [dev_info msg_stop; dmaengine_terminate_all])
  ∧ silence r.1.2 = 0
  ∧ ss r.1.2 = Some s
  ∧ (∀ o d, is_control_path o = true →
       period_elapsed_count (run_op o d).2 = 0%nat)
  ∧ late = (set_i2s_dma_cookie 0 (bcm2708_i2s_dma_complete dev residue).1,
            (bcm2708_i2s_dma_complete dev residue).2)
  ∧ take HALF_BYTES
      (drop (Z.to_nat (refill_offset residue)) (spdif_buffer late.1))
    = (encode_seq f (spdif dev)
         (ring_frames s (pcm_pointer dev) HALF_FRAMES)).2
  ∧ late.2
    = (if period_size (runtime s) <=? to_ulong (advanced_period_frames dev)
       then [snd_pcm_period_elapsed] else [])
  ∧ silence late.1 = 0
  ∧ silence prepared = 1
  ∧ silence_fill_cycle prepared residue
  ∧ bcm2708_i2s_dma_complete closed residue = (closed, []).
Proof.
  intros Hf Hs Hss Hlen H8 Hr Hfmt. cbv zeta.
  cbn [bcm2708_pcm_trigger bcm2708_pcm_close fst snd].
  split; [reflexivity|]. split; [exact Hs|]. split; [exact Hss|].
  split; [intros o d; apply control_path_no_period_elapsed|].
  split; [apply dma_complete_ignores_cookie|].
  rewrite dma_complete_ignores_cookie. cbn [fst snd].
  destruct (dma_complete_playing dev residue f s Hf Hs Hss)
    as (_ & _ & Hev & Hs' & _).
  cbv zeta in Hev, Hs'.
  split.
  { destruct (dma_complete_pcm dev residue f s Hf Hs Hss Hlen) as (Hb & _).
    cbv zeta in Hb. cbn [set_i2s_dma_cookie spdif_buffer].
    rewrite Hb, loop_sources_ring by exact H8.
    destruct (refill_offset_range residue) as [_ Hrange].
    assert (Hfl : length (encode_seq f (spdif dev)
                    (ring_frames s (pcm_pointer dev) HALF_FRAMES)).2
                  = HALF_BYTES).
    { rewrite encode_seq_length. unfold ring_frames.
      rewrite length_map, length_seq. symmetry. apply HALF_BYTES_eq. }
    rewrite <-Hfl. apply window_content. lia. }
  split; [exact Hev|].
  split; [exact Hs'|].
  rewrite (prepare_accepted s (set_i2s_dma_cookie 0 dev) env' cs3 f' Hr Hfmt).
  cbv zeta. cbn [fst snd].
  match goal with
  | |- context [bcm2708_i2s_dmaengine_prepare_and_submit ?d ?e] =>
      destruct (prepare_and_submit_keeps d e) as (_ & _ & Hsp & _ & Hfp);
      pose proof (prepare_and_submit_buffer_length d e) as Hlp;
      set (d' := (bcm2708_i2s_dmaengine_prepare_and_submit d e).1.2) in *
  end.
  cbn [set_silence set_spdif set_encode_frame set_i2s_dma_cookie silence
       encode_frame spdif_buffer] in Hsp, Hfp, Hlp.
  rewrite Hs in Hsp. cbn [Z.eqb] in Hsp.
  split; [exact Hsp|].
  split.
  { apply (silent_device_fill_cycle d' residue f' Hfp); [lia|].
    by rewrite Hlp. }
  apply (dma_complete_closed _ residue f); [exact Hf | exact Hs | reflexivity].
Qed.

End StreamProofs.

(** *** Register map *)

(** X12. Every precious register is volatile, and every volatile
    register is an address of the register map: a multiple of the stride
    that does not exceed [max_register]. *)
Theorem regmap_predicates_consistent reg :
  let cfg := bcm2708_regmap_config in
  (precious_reg cfg reg = true → volatile_reg cfg reg = true)
  ∧ (volatile_reg cfg reg = true →
       reg mod reg_stride cfg = 0 ∧ 0 ≤ reg ≤ max_register cfg).
Proof.
  cbn [bcm2708_regmap_config precious_reg volatile_reg reg_stride max_register].
  unfold bcm2708_i2s_precious_reg, bcm2708_i2s_volatile_reg.
  split.
  - destruct (Z.eqb_spec reg BCM2708_I2S_FIFO_A_REG) as [-> | _];
      [reflexivity | discriminate].
  - repeat match goal with
           | |- context [?a =? ?b] =>
               destruct (Z.eqb_spec a b) as [-> | _];
               [intros _; vm_compute; intuition discriminate|]
           end.
    discriminate.
Qed.

(** *** The sample mask *)

Section HwParamsProofs.
Context `{ENC : SpdifEncoder}.
Variable SPDIF_SAMPLE_MASK : Z.
Variable spdif_encoder_set_sample_mask : spdif_encoder → Z → spdif_encoder.

Lemma u32_bits_above m i : 0 ≤ m < 2 ^ 32 → 32 ≤ i → Z.testbit m i = false.
Proof.
  intros Hm Hi. rewrite <-(Z.mod_small m (2 ^ 32)) by lia.
  apply Z.mod_pow2_bits_high. lia.
Qed.

(** X13. [bcm2708_hw_params] hands the encoder a mask that never has a
    bit outside [SPDIF_SAMPLE_MASK]: the whole mask for 24 significant
    bits or more, and for fewer the bits of the mask that are still in the
    mask [24 - msbits] places lower (the low places are cleared).  It
    returns what the page allocation returned and touches nothing of the
    device but the encoder. *)
Theorem hw_params_sample_mask_spec dev msbits buffer_bytes res :
  0 ≤ SPDIF_SAMPLE_MASK < 2 ^ 32 →
  0 ≤ msbits →
  let m := hw_params_sample_mask SPDIF_SAMPLE_MASK msbits in
  let r := bcm2708_hw_params SPDIF_SAMPLE_MASK spdif_encoder_set_sample_mask
             dev msbits buffer_bytes res in
  Z.land m SPDIF_SAMPLE_MASK = m
  ∧ (24 ≤ msbits → m = SPDIF_SAMPLE_MASK)
  ∧ (msbits < 24 → ∀ i,
       Z.testbit m i
       = Z.testbit SPDIF_SAMPLE_MASK i
         && Z.testbit SPDIF_SAMPLE_MASK (i - (24 - msbits)))
  ∧ r.1.1 = res
  ∧ r.1.2 = set_spdif (spdif_encoder_set_sample_mask (spdif dev) m) dev.
Proof.
  intros Hm Hms. cbv zeta.
  assert (Hu : to_u32 SPDIF_SAMPLE_MASK = SPDIF_SAMPLE_MASK)
    by (apply Z.mod_small; lia).
  split; [|split; [|split; [|split; reflexivity]]];
    unfold hw_params_sample_mask; cbv zeta; rewrite !Hu.
  - destruct (msbits <? 24).
    + by rewrite <-Z.land_assoc, Z.land_diag.
    + apply Z.land_diag.
  - intros H24. apply Z.ltb_ge in H24. by rewrite H24.
  - intros H24 i. apply Z.ltb_lt in H24 as H24'. rewrite H24'.
    rewrite Z.land_spec. unfold to_u32, wrap_unsigned.
    destruct (Z.lt_ge_cases i 0) as [Hneg | Hpos].
    { by rewrite !Z.testbit_neg_r by lia. }
    destruct (Z.lt_ge_cases i 32) as [Hlow | Hhigh].
    + rewrite Z.mod_pow2_bits_low by lia.
      rewrite Z.shiftl_spec by lia. apply andb_comm.
    + rewrite Z.mod_pow2_bits_high by lia.
      rewrite (u32_bits_above SPDIF_SAMPLE_MASK i) by lia. reflexivity.
Qed.

End HwParamsProofs.

(** ** The claims on concrete runs (32-bit kernel, stand-in encoder) *)

(** A session on the probed device, with what the kernel sees: one
    silent refill before the start (counter 2, logged as 576 frames), then
    six refills of 192 frames that make one period of 1152 frames. *)
Example session_trace :
  (@run_ops abi32 demo_encoder
     [op_open ss_s16; op_prepare ss_s16 env_ok; op_dma_complete 0;
      op_trigger ss_s16 SNDRV_PCM_TRIGGER_START env_ok;
      op_dma_complete 6144; op_dma_complete 0; op_dma_complete 6144;
      op_dma_complete 0; op_dma_complete 6144; op_dma_complete 0;
      op_trigger ss_s16 SNDRV_PCM_TRIGGER_STOP env_ok;
      op_close ss_s16] dev_probed).2
  = [clk_set_rate 6144000; clk_prepare_enable;
     dev_info (msg_prepare 16 48000);
     dmaengine_prep_dma_cyclic 6144 3072; dmaengine_submit;
     dma_async_issue_pending;
     dev_info (msg_start_silenced 576);
     snd_pcm_period_elapsed;
     dev_info msg_stop; dmaengine_terminate_all].
Proof. vm_compute. reflexivity. Qed.

(** Without a start the completions keep counting silence and raise
    nothing. *)
Example silence_run :
  let r := @run_ops abi32 demo_encoder
             [op_dma_complete 0; op_dma_complete 6144; op_dma_complete 0]
             dev_prepared in
  (silence r.1, pcm_pointer r.1, period_frames r.1, r.2) = (4, 0, 0, []).
Proof. vm_compute. reflexivity. Qed.

Lemma C10_witness :
  encode_frame dev_probed = None
  ∧ bcm2708_i2s_dma_complete (ABI := abi32) dev_probed 0 = (dev_probed, []).
Proof.
  split; [reflexivity|].
  apply (C10_dma_complete_unprepared (ABI := abi32) dev_probed 0).
  reflexivity.
Defined.

Lemma C9_witness :
  0 < i2s_dma_cookie dev_prepared
  ∧ bcm2708_i2s_dmaengine_prepare_and_submit dev_prepared env_ok
    = (0, dev_prepared, []).
Proof.
  assert (H : 0 < i2s_dma_cookie dev_prepared) by (vm_compute; reflexivity).
  split; [exact H|].
  exact (proj1 (C9_prepare_and_submit_pending dev_prepared env_ok H)).
Defined.

Lemma C7_witness :
  ∃ m, bcm2708_pcm_prepare ss_32k dev_probed env_ok
       = (- EINVAL, dev_probed, [dev_err m]).
Proof.
  apply (C7_prepare_rejects ss_32k dev_probed env_ok).
  left. cbn [ss_32k runtime rate].
  rewrite !not_elem_of_cons. repeat split; try lia. apply not_elem_of_nil.
Defined.

Lemma C2_witness :
  let buf' :=
    spdif_buffer (bcm2708_i2s_dma_complete (ABI := abi32) dev_started 6144).1 in
  refill_offset (ENC := demo_encoder) 6144 = SPDIF_BUFSIZE (ENC := demo_encoder) / 2
  ∧ take (HALF_BYTES (ENC := demo_encoder)) buf' = take (HALF_BYTES (ENC := demo_encoder)) (spdif_buffer dev_started)
  ∧ drop (HALF_BYTES (ENC := demo_encoder)) buf'
    = (encode_seq spdif_encode_frame_s16le (spdif dev_started)
         (ring_frames ss_s16 (pcm_pointer dev_started) HALF_FRAMES)).2.
Proof.
  refine (proj2 (proj2 (proj2
            (C2_half_selection (ABI := abi32) dev_started 6144
               spdif_encode_frame_s16le
               (ring_frames ss_s16 (pcm_pointer dev_started) HALF_FRAMES)
               _ _ _))) _).
  - reflexivity.
  - vm_compute. reflexivity.
  - right. exists ss_s16.
    split; [reflexivity|]. split; [reflexivity|]. split; reflexivity.
  - vm_compute. reflexivity.
Defined.

(** The two halves after one refill of the started device, whose buffer
    holds zeros: with a residue above half the buffer the frames start at
    byte 3072 and half 0 keeps its zeros; with a residue of at most half
    they start at byte 0 and half 1 keeps its zeros. *)
Example half_selection_bytes :
  let hi :=
    spdif_buffer (bcm2708_i2s_dma_complete (ABI := abi32) dev_started 6144).1 in
  let lo :=
    spdif_buffer (bcm2708_i2s_dma_complete (ABI := abi32) dev_started 3072).1 in
  (hi !! 0%nat, hi !! 3071%nat, hi !! 3072%nat, hi !! 3073%nat)
  = (Some x00, Some x00, Some x42, Some x7f)
  ∧ (lo !! 0%nat, lo !! 1%nat, lo !! 3072%nat, lo !! 3073%nat)
    = (Some x42, Some x7f, Some x00, Some x00).
Proof. split; vm_compute; reflexivity. Qed.

Lemma C8_witness :
  length (spdif_buffer (bcm2708_i2s_dma_complete (ABI := abi32) dev_started 0).1)
  = length (spdif_buffer dev_started)
  ∧ spdif_buffer (bcm2708_i2s_dma_complete (ABI := abi32) dev_started 0).1
      !! 3072%nat
    = spdif_buffer dev_started !! 3072%nat.
Proof.
  assert (Hlen : length (spdif_buffer dev_started)
                 = Z.to_nat (SPDIF_BUFSIZE (ENC := demo_encoder)))
    by (vm_compute; reflexivity).
  pose proof (C8_other_half_untouched (ABI := abi32) dev_started 0 Hlen)
    as (Hl & Hout & _).
  split; [exact Hl|].
  apply Hout. vm_compute. lia.
Defined.

Lemma C1_witness :
  (take (HALF_BYTES (ENC := demo_encoder))
     (drop (Z.to_nat (refill_offset (ENC := demo_encoder) 0))
        (spdif_buffer (bcm2708_i2s_dma_complete (ABI := abi32) dev_prepared 0).1))
   = (encode_seq spdif_encode_frame_s16le (spdif dev_prepared)
        (replicate HALF_FRAMES zero)).2
   ∧ pcm_pointer (bcm2708_i2s_dma_complete (ABI := abi32) dev_prepared 0).1
     = pcm_pointer dev_prepared)
  ∧ (take (HALF_BYTES (ENC := demo_encoder))
       (drop (Z.to_nat (refill_offset (ENC := demo_encoder) 0))
          (spdif_buffer (bcm2708_i2s_dma_complete (ABI := abi32) dev_started 0).1))
     = (encode_seq spdif_encode_frame_s16le (spdif dev_started)
          (ring_frames ss_s16 (pcm_pointer dev_started) HALF_FRAMES)).2
     ∧ pcm_pointer (bcm2708_i2s_dma_complete (ABI := abi32) dev_started 0).1
       = (pcm_pointer dev_started + SPDIF_BUFSIZE_FRAMES / 2)
           mod buffer_size (runtime ss_s16)
     ∧ pcm_pointer dev_started + SPDIF_BUFSIZE_FRAMES / 2
       ≤ buffer_size (runtime ss_s16)).
Proof.
  split.
  - refine (proj1 (C1_refill_contents (ABI := abi32) dev_prepared 0
                     spdif_encode_frame_s16le _ _) _).
    + vm_compute. reflexivity.
    + vm_compute. reflexivity.
    + vm_compute. discriminate.
  - assert (Hlen : length (spdif_buffer dev_started)
                   = Z.to_nat (SPDIF_BUFSIZE (ENC := demo_encoder)))
      by (vm_compute; reflexivity).
    assert (Hp : 0 ≤ pcm_pointer dev_started < buffer_size (runtime ss_s16))
      by (vm_compute; split; [discriminate | reflexivity]).
    assert (Hb : SPDIF_BUFSIZE_FRAMES / 2 ≤ buffer_size (runtime ss_s16) < 2 ^ 30)
      by (vm_compute; split; [discriminate | reflexivity]).
    destruct (proj2 (C1_refill_contents (ABI := abi32) dev_started 0
                       spdif_encode_frame_s16le eq_refl Hlen)
                ss_s16 eq_refl eq_refl eq_refl Hp Hb) as (Hh & Hq & Ha).
    split; [exact Hh|]. split; [exact Hq|].
    apply Ha.
    + exists 0. reflexivity.
    + exists 48. reflexivity.
Defined.

(** The session reaches the playing device. *)
Lemma playing_session_stream mem s :
  s = {| runtime := rt_s16; dma_buffer_area := mem |} →
  ss (@run_ops abi32 demo_encoder (playing_session s) dev_probed).1 = Some s.
Proof. intros ->. vm_compute. reflexivity. Qed.

Example dev_playing_reached :
  (@run_ops abi32 demo_encoder (playing_session ss_s16) dev_probed).1
  = dev_playing.
Proof.
  pose proof (playing_session_stream _ ss_s16 eq_refl) as Hss.
  assert (H :
    let d := (@run_ops abi32 demo_encoder (playing_session ss_s16)
                dev_probed).1 in
    (i2s_dma_cookie d, pcm_pointer d, spdif d, period_frames d,
     encode_frame d, silence d)
    = (2, 960, (0%nat, [4; 130; 0; 2; 2]), 960,
       Some spdif_encode_frame_s16le, 0))
    by (vm_compute; reflexivity).
  cbv zeta in H. unfold dev_playing. revert Hss H.
  generalize
    (@run_ops abi32 demo_encoder (playing_session ss_s16) dev_probed).1.
  intros [c b p e x pf f v].
  cbn [i2s_dma_cookie spdif_buffer pcm_pointer spdif ss period_frames
       encode_frame silence].
  intros -> [= -> -> -> -> -> ->]. reflexivity.
Qed.


(** The sixth refill of the period: the counter goes from 960 to 1152,
    the period size, so that one threshold is reached, one notification
    raised and the counter left at 0. *)
Example period_end_refill :
  (threshold_crossings (period_frames dev_playing)
     (period_size (runtime ss_s16)),
   (bcm2708_i2s_dma_complete (ABI := abi32) dev_playing 0).2,
   period_frames (bcm2708_i2s_dma_complete (ABI := abi32) dev_playing 0).1)
  = (1, [snd_pcm_period_elapsed], 0).
Proof. vm_compute. reflexivity. Qed.

(** The single threshold test of the callback on a runtime outside the
    hardware constraints: with a period of 64 frames the refill of 192
    frames reaches three multiples of the period, and the callback
    notifies once and leaves [period_frames] at 128. *)
Example short_period_notifies_once :
  hw_constrained (runtime ss_short_period) = false
  ∧ encode_frame dev_short_period = Some spdif_encode_frame_s16le
  ∧ silence dev_short_period = 0
  ∧ (period_size ∘ runtime) <$> ss dev_short_period = Some 64
  ∧ period_frames dev_short_period = 0
  ∧ threshold_crossings 0 (period_size (runtime ss_short_period)) = 3
  ∧ period_elapsed_count
      (bcm2708_i2s_dma_complete (ABI := abi32) dev_short_period 0).2 = 1%nat
  ∧ period_frames
      (bcm2708_i2s_dma_complete (ABI := abi32) dev_short_period 0).1 = 128.
Proof.
  do 7 (split; [vm_compute; reflexivity|]). vm_compute. reflexivity.
Qed.

Lemma C4_witness :
  let r := bcm2708_pcm_trigger ss_s16 dev_playing SNDRV_PCM_TRIGGER_STOP
             env_ok in
  let late := bcm2708_i2s_dma_complete (ABI := abi32) r.1.2 0 in
  r = (0, set_i2s_dma_cookie 0 dev_playing,
       [dev_info msg_stop; dmaengine_terminate_all])
  ∧ take (HALF_BYTES (ENC := demo_encoder))
      (drop (Z.to_nat (refill_offset (ENC := demo_encoder) 0)) (spdif_buffer late.1))
    = (encode_seq spdif_encode_frame_s16le (spdif dev_playing)
         (ring_frames ss_s16 (pcm_pointer dev_playing) HALF_FRAMES)).2
  ∧ late.2
    = (if period_size (runtime ss_s16)
          <=? @to_ulong abi32 (advanced_period_frames dev_playing)
       then [snd_pcm_period_elapsed] else [])
  ∧ silence_fill_cycle (ABI := abi32)
      (bcm2708_pcm_prepare ss_s16 r.1.2 env_ok).1.2 0
  ∧ bcm2708_i2s_dma_complete (ABI := abi32)
      (bcm2708_pcm_close ss_s16 r.1.2).1.2 0
    = ((bcm2708_pcm_close ss_s16 r.1.2).1.2, []).
Proof.
  pose proof (C4_stop_then_completion (ABI := abi32) ss_s16 dev_playing
                env_ok env_ok 0 spdif_encode_frame_s16le 2
                spdif_encode_frame_s16le) as H.
  destruct H as (H1 & _ & _ & _ & _ & H6 & H7 & _ & _ & H10 & H11).
  - reflexivity.
  - reflexivity.
  - reflexivity.
  - vm_compute. reflexivity.
  - reflexivity.
  - reflexivity.
  - reflexivity.
  - exact (conj H1 (conj H6 (conj H7 (conj H10 H11)))).
Defined.

(** The claim of C4 as the spec words it fails: a stop leaves the silence
    counter at 0 and the substream attached, so a completion that arrives
    after the stop is a PCM refill; here it completes the first period and
    raises the period-elapsed notification. *)
Lemma C4_counterexample :
  i2s_dma_cookie dev_stopped = 0
  ∧ silence dev_stopped = 0
  ∧ (period_size ∘ runtime) <$> ss dev_stopped = Some 1152
  ∧ period_frames dev_stopped = 960
  ∧ (bcm2708_i2s_dma_complete (ABI := abi32) dev_stopped 0).2
    = [snd_pcm_period_elapsed]
  ∧ pcm_pointer (bcm2708_i2s_dma_complete (ABI := abi32) dev_stopped 0).1
    = 1152
  ∧ ¬ silence_fill_cycle (ABI := abi32) dev_stopped 0.
Proof.
  do 6 (split; [vm_compute; reflexivity|]).
  intros (_ & H & _). vm_compute in H. discriminate.
Qed.

Lemma C6_witness :
  silence (bcm2708_pcm_prepare ss_s16 dev_probed env_ok).1.2 = 1
  ∧ silence (bcm2708_i2s_dma_complete (ABI := abi32) dev_prepared 0).1
    = to_int (silence dev_prepared + 1).
Proof.
  split.
  - refine (proj1 (proj2 (proj2 (C6_silence_counter (ABI := abi32)
              (op_prepare ss_s16 env_ok) dev_probed) _ _))).
    + reflexivity.
    + vm_compute. discriminate.
  - refine (proj2 (proj2 (proj1 (C6_silence_counter (ABI := abi32)
              (op_dma_complete 0) dev_prepared) _) _)).
    + reflexivity.
    + vm_compute. discriminate.
Defined.

(** ** The further properties on concrete runs *)

(** Sixteen significant bits out of a 24-bit mask: the low eight places
    are cleared. *)
Example hw_params_sample_mask_16 :
  hw_params_sample_mask demo_sample_mask 16 = 0xffff00.
Proof. reflexivity. Qed.

Lemma X2_witness :
  let p := bcm2708_pcm_prepare ss_s16 dev_probed env_ok in
  let b := run_ops (ABI := abi32) (completions [0; 6144; 0]) p.1.2 in
  encode_frame p.1.2 = Some spdif_encode_frame_s16le
  ∧ silence p.1.2 ≠ 0
  ∧ b.2 = []
  ∧ pcm_pointer b.1 = pcm_pointer dev_probed
  ∧ silence b.1 = silence p.1.2 + 3.
Proof.
  pose proof (prepare_leaves_silent (ABI := abi32) ss_s16 dev_probed env_ok 2
                spdif_encode_frame_s16le eq_refl eq_refl)
    as (A & _ & B & _ & _ & _ & _ & _ & C).
  destruct (C [0; 6144; 0]) as (D & E & _ & F & _).
  - vm_compute. discriminate.
  - vm_compute. reflexivity.
  - exact (conj A (conj B (conj D (conj E F)))).
Defined.

Lemma X3_witness :
  silence (run_ops (ABI := abi32) (completions [0; 6144]) dev_prepared).1
  = silence dev_prepared + 2.
Proof.
  refine (proj1 (proj2 (silent_completions (ABI := abi32) [0; 6144]
                          dev_prepared spdif_encode_frame_s16le _ _ _))).
  - reflexivity.
  - reflexivity.
  - vm_compute. reflexivity.
Defined.

Lemma X4_witness :
  silence (bcm2708_i2s_dma_complete (ABI := abi32) dev_wrapping 0).1 = 0.
Proof.
  refine (proj2 (proj1 (silence_counter_wraps (ABI := abi32) dev_wrapping 0
                          spdif_encode_frame_s16le _ _)) _).
  - reflexivity.
  - vm_compute. split; [discriminate | reflexivity].
  - right. reflexivity.
Defined.

Lemma X5_witness :
  pcm_pointer
    (run_ops (ABI := abi32) (completions [0; 6144; 0]) dev_started).1
  = (pcm_pointer dev_started + 192 * 3) mod buffer_size (runtime ss_s16).
Proof.
  refine (proj1 (playing_completions (ABI := abi32) [0; 6144; 0] dev_started
                   spdif_encode_frame_s16le ss_s16 _ _ _ _ _ _ _)).
  - reflexivity.
  - reflexivity.
  - reflexivity.
  - vm_compute. split; [discriminate | reflexivity].
  - vm_compute. split; [discriminate | reflexivity].
  - vm_compute. split; [discriminate | reflexivity].
  - vm_compute. split; [discriminate | reflexivity].
Defined.

Lemma X7_witness :
  spdif_buffer
    (bcm2708_i2s_dma_complete (ABI := abi32)
       (bcm2708_i2s_dma_complete (ABI := abi32) dev_prepared 0).1 6144).1
  = (encode_seq spdif_encode_frame_s16le (spdif dev_prepared)
       (replicate (Z.to_nat SPDIF_BUFSIZE_FRAMES) zero)).2.
Proof.
  refine (proj1 (two_refills_fill_whole_buffer (ABI := abi32) dev_prepared
                   0 6144 spdif_encode_frame_s16le _ _ _ _)).
  - reflexivity.
  - vm_compute. split; reflexivity.
  - vm_compute. reflexivity.
  - vm_compute. split; [discriminate | reflexivity].
Defined.

Lemma X8_witness :
  spdif_buffer
    (bcm2708_i2s_dmaengine_prepare_and_submit dev_idle env_ok).1.2
  = (encode_seq spdif_encode_frame_s16le (spdif dev_idle)
       (replicate (Z.to_nat SPDIF_BUFSIZE_FRAMES) zero)).2.
Proof.
  refine (proj1 (prepare_and_submit_fills_silence dev_idle env_ok
                   spdif_encode_frame_s16le _ _ _)).
  - vm_compute. discriminate.
  - reflexivity.
  - vm_compute. reflexivity.
Defined.

Lemma X9_witness :
  (bcm2708_i2s_dmaengine_prepare_and_submit dev_probed env_no_desc).1.1
  = - ENOMEM
  ∧ i2s_dma_cookie
      (bcm2708_i2s_dmaengine_prepare_and_submit dev_probed env_no_desc).1.2
    = i2s_dma_cookie dev_probed.
Proof.
  assert (Hc : i2s_dma_cookie dev_probed ≤ 0) by (vm_compute; discriminate).
  pose proof (prepare_and_submit_enomem dev_probed env_no_desc env_ok Hc
                eq_refl eq_refl) as (A & B & _).
  exact (conj A B).
Defined.

Lemma X10_witness :
  (submit_count
     (run_ops (ABI := abi32)
        [op_open ss_s16; op_prepare ss_s16 env_ok;
         op_trigger ss_s16 SNDRV_PCM_TRIGGER_START env_ok;
         op_dma_complete 0;
         op_trigger ss_s16 SNDRV_PCM_TRIGGER_STOP env_ok] dev_probed).2
   ≤ 1 + 1)%nat.
Proof.
  refine (submissions_bounded_by_stops (ABI := abi32)
            [op_open ss_s16; op_prepare ss_s16 env_ok;
             op_trigger ss_s16 SNDRV_PCM_TRIGGER_START env_ok;
             op_dma_complete 0;
             op_trigger ss_s16 SNDRV_PCM_TRIGGER_STOP env_ok] dev_probed _).
  repeat constructor.
Defined.

Lemma X11_witness :
  submit_count
    (bcm2708_pcm_trigger ss_s16
       (bcm2708_pcm_trigger ss_s16 dev_started SNDRV_PCM_TRIGGER_STOP
          env_ok).1.2
       SNDRV_PCM_TRIGGER_START env_ok).2 = 1%nat.
Proof.
  refine (proj1 (proj2 (proj2 (stop_start_resubmits ss_s16 dev_started env_ok
                                 env_ok spdif_encode_frame_s16le _ _ _)))).
  - reflexivity.
  - vm_compute. reflexivity.
  - reflexivity.
Defined.

Lemma X13_witness :
  Z.land (hw_params_sample_mask demo_sample_mask 16) demo_sample_mask
  = hw_params_sample_mask demo_sample_mask 16.
Proof.
  refine (proj1 (hw_params_sample_mask_spec demo_sample_mask
                   demo_set_sample_mask dev_probed 16 36864 0 _ _)).
  - vm_compute. split; [discriminate | reflexivity].
  - vm_compute. discriminate.
Defined.

Lemma X14_witness :
  period_size rt_s16 = 6 * (SPDIF_BUFSIZE_FRAMES / 2)
  ∧ buffer_size rt_s16 = PCM_PERIODES * period_size rt_s16.
Proof.
  pose proof (hw_constrained_geometry rt_s16 eq_refl) as (_ & B & _).
  split; [reflexivity | exact B].
Defined.

Lemma X15_witness :
  (SPDIF_BUFSIZE_FRAMES / 2
   | bcm2708_pcm_pointer
       (run_ops (ABI := abi32)
          [op_open ss_s16; op_prepare ss_s16 env_ok;
           op_trigger ss_s16 SNDRV_PCM_TRIGGER_START env_ok;
           op_dma_complete 0; op_dma_complete 6144] dev_probed).1).
Proof.
  refine (proj2 (pointer_on_refill_boundary (ABI := abi32)
                   [op_open ss_s16; op_prepare ss_s16 env_ok;
                    op_trigger ss_s16 SNDRV_PCM_TRIGGER_START env_ok;
                    op_dma_complete 0; op_dma_complete 6144] dev_probed _ _)).
  - split; [exists 0; reflexivity|].
    split; [vm_compute; split; [discriminate | reflexivity]|].
    discriminate.
  - apply Forall_cons. split; [|repeat constructor].
    split; [exists 48; reflexivity | vm_compute; split; reflexivity].
Defined.

Lemma X16_witness :
  period_elapsed_count
    (run_ops (ABI := abi32)
       (completions [0; 6144; 0; 6144; 0; 6144; 0]) dev_started).2
  = Z.to_nat (7 / (period_size (runtime ss_s16) / (SPDIF_BUFSIZE_FRAMES / 2))).
Proof.
  refine (proj1 (proj2 (period_elapsed_every_period (ABI := abi32)
                          [0; 6144; 0; 6144; 0; 6144; 0] dev_started
                          spdif_encode_frame_s16le ss_s16 _ _ _ _ _ _))).
  all: reflexivity.
Defined.

Lemma X17_witness :
  last
    (run_ops (ABI := abi32)
       (op_prepare ss_s16 env_ok
          :: completions [0]
          ++ [op_trigger ss_s16 SNDRV_PCM_TRIGGER_START env_ok])
       dev_probed).2
  = Some (dev_info (msg_start_silenced (SPDIF_BUFSIZE_FRAMES + 192 * 1))).
Proof.
  refine (proj1 (start_reports_silence_encoded (ABI := abi32) ss_s16
                   dev_probed env_ok env_ok [0] 2 spdif_encode_frame_s16le
                   _ _ _ _ _ _ _)).
  - reflexivity.
  - reflexivity.
  - reflexivity.
  - vm_compute. discriminate.
  - reflexivity.
  - reflexivity.
  - vm_compute. split; [reflexivity | discriminate].
Defined.
